(** * organize.py: page deduplication and reordering of PDF batches

    A shallow embedding of [organize.py] (class [Logger], [get_real_page_num],
    [organize_file] and the batch entry point) together with the properties of
    its page table, its label extraction and its terminal output. *)

From Stdlib Require Import ZArith NArith Ascii String Lia.
From stdpp Require Import base list gmap strings sorting.

Open Scope Z_scope.

(** ** Python values *)

(** A Python [str] is a sequence of Unicode code points. *)
Abbreviation char := N.
Abbreviation str := (list N).

(** Literals are written as Rocq strings; only code points below 256 can be
    written this way, the others are given by number. *)
Definition py (s : string) : str := N_of_ascii <$> list_ascii_of_string s.

(** The exceptions that the modelled code can raise. *)
Inductive exn : Set :=
  | IndexError
  | ZeroDivisionError
  | ValueError
  | FileNotFoundError
  | UnicodeEncodeError.

Inductive result (A : Type) : Type :=
  | Ok (a : A)
  | Raise (e : exn).
Arguments Ok {A} a.
Arguments Raise {A} e.

(** [l[i]] for a Python list, with negative indices counted from the end. *)
Definition getitem {A} (l : list A) (i : Z) : result A :=
  let j := if i <? 0 then i + Z.of_nat (length l) else i in
  if j <? 0 then Raise IndexError
  else match l !! Z.to_nat j with
       | Some x => Ok x
       | None => Raise IndexError
       end.

(** The line boundaries of [str.splitlines]: LF, VT, FF, CR, FS, GS, RS, NEL,
    LINE SEPARATOR and PARAGRAPH SEPARATOR; CR LF counts as one boundary. *)
Definition LF : char := 10%N.
Definition CR : char := 13%N.

Definition is_linebreak (c : char) : bool :=
  bool_decide (c ∈ [10; 11; 12; 13; 28; 29; 30; 133; 8232; 8233]%N).

(** [splitlines_from cur s]: the lines of [s], where [cur] holds, reversed,
    the characters of the line being read. A final line is produced only when
    it is not empty, so the empty text has no line at all. *)
Fixpoint splitlines_from (cur : str) (s : str) : list str :=
  match s with
  | [] => match cur with [] => [] | _ => [rev cur] end
  | c :: s' =>
      if is_linebreak c then
        rev cur ::
          match s' with
          | c' :: s'' =>
              if bool_decide (c = CR ∧ c' = LF) then splitlines_from [] s''
              else splitlines_from [] s'
          | [] => splitlines_from [] s'
          end
      else splitlines_from (c :: cur) s'
  end.

Definition splitlines (s : str) : list str := splitlines_from [] s.

(** [s.split(sep)] for a separator of one character: never an empty list. *)
Fixpoint split_from (sep : char) (cur : str) (s : str) : list str :=
  match s with
  | [] => [rev cur]
  | c :: s' =>
      if bool_decide (c = sep) then rev cur :: split_from sep [] s'
      else split_from sep (c :: cur) s'
  end.

Definition split (sep : char) (s : str) : list str := split_from sep [] s.

Definition SLASH : char := 47%N.

(** [str(n)] of an integer: decimal digits, most significant first, with a
    leading minus sign for negative numbers. *)
Definition digit (d : N) : char := (48 + d)%N.

Fixpoint digits_from (fuel : nat) (n : N) (acc : str) : str :=
  match fuel with
  | O => acc
  | S fuel' =>
      let acc' := digit (n mod 10) :: acc in
      if (n <? 10)%N then acc' else digits_from fuel' (n / 10) acc'
  end.

Definition str_of_N (n : N) : str := digits_from (S (N.to_nat (N.log2 n))) n [].

Definition str_of_int (z : Z) : str :=
  if z <? 0 then 45%N :: str_of_N (Z.to_N (- z)) else str_of_N (Z.to_N z).

(** [s * n]: repetition, empty when [n] is not positive. *)
Definition str_repeat (s : str) (n : Z) : str := mjoin (replicate (Z.to_nat n) s).

(** ** collections.OrderedDict *)

Module OrderedDict.
Section ordered_dict.
Context {K V : Type} `{EqDecision K}.

(** The entries in iteration order; keys are pairwise distinct. *)
Definition t : Type := list (K * V).

Definition empty : t := [].

(** [d[k] = v]: an existing key keeps its place and gets the new value, a
  new key goes to the end. *)
Fixpoint setitem (d : t) (k : K) (v : V) : t :=
match d with
| [] => [(k, v)]
| (k', v') :: d' =>
    if decide (k' = k) then (k', v) :: d' else (k', v') :: setitem d' k v
end.

Definition items (d : t) : list (K * V) := d.
Definition keys (d : t) : list K := d.*1.
Definition values (d : t) : list V := d.*2.

Fixpoint get (d : t) (k : K) : option V :=
match d with
| [] => None
| (k', v') :: d' => if decide (k' = k) then Some v' else get d' k
end.
End ordered_dict.
Arguments t : clear implicits.
End OrderedDict.

(** ** The page table of [organize_file] (lines 79-85)

    [pages[page_num] = i] for every page in source order, then one output
    page per entry of [pages.items()]. *)
Section reorder.
Context {K V : Type} `{Countable K}.

Definition page_table (pairs : list (K * V)) : OrderedDict.t K V :=
  fold_left (λ d kv, OrderedDict.setitem d kv.1 kv.2) pairs OrderedDict.empty.

Definition reorder (pairs : list (K * V)) : list V :=
  (OrderedDict.items (page_table pairs)).*2.

(** The labels of a sequence without repetitions, each at the place where
    it comes first. *)
Fixpoint first_seen (ks : list K) : list K :=
  match ks with
  | [] => []
  | k :: ks' => k :: filter (λ k', k' ≠ k) (first_seen ks')
  end.

(** The number of distinct labels of a sequence of pairs. *)
Definition distinct_labels (pairs : list (K * V)) : nat :=
  size (list_to_set pairs.*1 : gset K).
End reorder.


(** ** Effects: standard output and the file system

    The code prints to the terminal and reads and writes PDF files. A world
    holds what has been printed so far and the documents of the file system,
    each as the list of its pages.

    Standard output is a text stream in UTF-8 with strict error handling. A
    file of the world is a readable PDF document, and every path can be
    written: what [open] and PyPDF2 raise for a file that is not a PDF
    document, or for an output file that cannot be created, is outside this
    world. What is stated below about an output file is therefore stated for
    the runs of [organize_file] that return. *)

(** A page of a PyPDF2 document: its text layer and the rest of it. *)
Record Page : Set := { extractText : str; body : nat }.

Abbreviation PdfFileReader := (list Page).
Abbreviation PdfFileWriter := (list Page).

Record world : Type := { stdout : str; files : gmap str (list Page) }.

#[global] Instance result_ret : MRet result := λ A a, Ok a.
#[global] Instance result_bind : MBind result := λ A B f m,
  match m with
  | Ok a => f a
  | Raise e => Raise e
  end.

(** A computation that may raise and that changes the world; what was done
    before an exception stays done. *)
Definition M (A : Type) : Type := world → result A * world.

#[global] Instance M_ret : MRet M := λ A a w, (Ok a, w).
#[global] Instance M_bind : MBind M := λ A B f m w,
  match m w with
  | (Ok a, w') => f a w'
  | (Raise e, w') => (Raise e, w')
  end.

Definition raise {A} (e : exn) : M A := λ w, (Raise e, w).

Definition lift {A} (r : result A) : M A := λ w, (r, w).

(** The code points that UTF-8 encodes: all but the surrogates, which a
    Python [str] can hold (a file name that is not valid UTF-8 has them). *)
Definition encodable_char (c : char) : bool :=
  (c <? 0xD800)%N || ((0xDFFF <? c)%N && (c <=? 0x10FFFF)%N).

Definition encodable (s : str) : bool := forallb encodable_char s.

(** [print(s, end="")]: the text is encoded as a whole before any of it is
    written, so a text that cannot be encoded raises and prints nothing. *)
Definition print (s : str) : M () := λ w,
  if encodable s then (Ok (), {| stdout := stdout w ++ s; files := files w |})
  else (Raise UnicodeEncodeError, w).

(** [open(path, "rb")] followed by [PdfFileReader(f)]; the reader stands for
    the pages as the file has them at that moment. A path without a file
    raises FileNotFoundError. *)
Definition open_pdf (path : str) : M PdfFileReader := λ w,
  match files w !! path with
  | Some pdf => (Ok pdf, w)
  | None => (Raise FileNotFoundError, w)
  end.

(** [open(path, "wb")] followed by [writer.write(f)], for a path that can
    be written. *)
Definition write_pdf (path : str) (writer : PdfFileWriter) : M () := λ w,
  (Ok (), {| stdout := stdout w; files := <[path := writer]> (files w) |}).

(** [os.path.join(a, b)] on POSIX *)
Definition path_join (a b : str) : str :=
  match b with
  | c :: _ => if bool_decide (c = SLASH) then b
              else if bool_decide (a = [] ∨ last a = Some SLASH) then a ++ b
              else a ++ SLASH :: b
  | [] => if bool_decide (a = [] ∨ last a = Some SLASH) then a
          else a ++ [SLASH]
  end.

(** ** class Logger *)

Definition ESC : char := 27%N.

Module Logger.
Record t : Set := { num : Z }.

Definition __init__ (num : Z) : M t :=
  print (str_repeat (ESC :: py "[K" ++ [LF]) num);;
  print (ESC :: py "[?25l");;
  mret {| num := num |}.

Definition log (self : t) (line : Z) (msg : str) : M () :=
  let line := num self - line in
  print (ESC :: py "[" ++ str_of_int line ++ py "F");;
  print (ESC :: py "[2K");;
  print msg;;
  print (ESC :: py "[" ++ str_of_int line ++ py "E").

Definition __del__ (self : t) : M () :=
  print (ESC :: py "[?25h").
End Logger.

(** ** get_real_page_num *)

Definition getPage (pdf : PdfFileReader) (page_num : nat) : result Page :=
  match pdf !! page_num with
  | Some page => Ok page
  | None => Raise IndexError
  end.

Definition get_real_page_num (pdf : PdfFileReader) (page_num : nat) : result str :=
  page ← getPage pdf page_num;
  let text := extractText page in
  last_line ← getitem (splitlines text) (-1);
  getitem (split SLASH last_line) 0.

(** ** organize_file *)

(** The frames of [itertools.cycle("⠋⠙⠹⠸⠼⠴⠦⠧⠇⠏")]; the state of the
    iterator is the number of frames taken so far. *)
Definition spinner_frames : str :=
  [0x280b; 0x2819; 0x2839; 0x2838; 0x283c; 0x2834; 0x2836; 0x2837; 0x2827; 0x280f]%N.

Definition next_spinner (taken : nat) : char * nat :=
  (nth (taken mod 10) spinner_frames 0%N, S taken).

Section organize.
(** [f"{x:.2f}"] for [x = (num_pages - new_num_pages) / num_pages * 100],
    a float; it is only asked for when [num_pages] is not zero. *)
Variable format_reduction : nat → nat → str.

(** The global [logger] of the worker process, set by [init_pool]. *)
Variable logger : Logger.t.

(** The first loop of [organize_file], over the page numbers [todo]. *)
Fixpoint collect_pages (pdf : PdfFileReader) (line : Z) (file_name : str)
    (num_pages : nat) (todo : list nat) (spinner : nat)
    (pages : OrderedDict.t str nat) : M (OrderedDict.t str nat) :=
  match todo with
  | [] => mret pages
  | i :: todo' =>
      let '(frame, spinner') := next_spinner spinner in
      Logger.log logger line
        (frame :: py " " ++ file_name ++ py ": " ++ str_of_int (Z.of_nat i + 1)
           ++ py "/" ++ str_of_int (Z.of_nat num_pages));;
      page_num ← lift (get_real_page_num pdf i);
      collect_pages pdf line file_name num_pages todo' spinner'
        (OrderedDict.setitem pages page_num i)
  end.

(** The second loop: [writer.addPage(pdf.getPage(i))] for every entry. *)
Fixpoint add_pages (pdf : PdfFileReader) (entries : list (str * nat))
    (writer : PdfFileWriter) : result PdfFileWriter :=
  match entries with
  | [] => mret writer
  | (_, i) :: entries' =>
      page ← getPage pdf i;
      add_pages pdf entries' (writer ++ [page])
  end.

Definition organize_file (args : Z * str * str * str) : M () :=
  let '(line, file_name, directory, output) := args in
  let file_path := path_join directory file_name in
  pdf ← open_pdf file_path;
  let writer : PdfFileWriter := [] in
  let num_pages := length pdf in
  pages ← collect_pages pdf line file_name num_pages (seq 0 num_pages) 0
             OrderedDict.empty;
  writer ← lift (add_pages pdf (OrderedDict.items pages) writer);
  let output_file_name := path_join output file_name in
  write_pdf output_file_name writer;;
  let new_num_pages := length writer in
  reduction ← (if bool_decide (num_pages = 0%nat) then raise ZeroDivisionError
               else mret (format_reduction num_pages new_num_pages));
  Logger.log logger line
    (0x2713%N :: py " " ++ file_name ++ py ": " ++ str_of_int (Z.of_nat num_pages)
       ++ py " -> " ++ str_of_int (Z.of_nat new_num_pages) ++ py " pages ("
       ++ 0x2193%N :: py " " ++ reduction ++ py "%)").
End organize.

(** ** The batch entry point *)

(** [s.endswith(suffix)] *)
Definition endswith (s suffix : str) : bool := bool_decide (suffix `suffix_of` s).

(** The order of [sorted] on strings: code point by code point. *)
Fixpoint str_le (a b : str) : bool :=
  match a, b with
  | [], _ => true
  | _ :: _, [] => false
  | x :: a', y :: b' => (x <? y)%N || ((x =? y)%N && str_le a' b')
  end.

Definition sorted (l : list str) : list str := merge_sort (λ a b, str_le a b) l.

(** [enumerate(l)] *)
Definition enumerate {A} (l : list A) : list (Z * A) := imap (λ i x, (Z.of_nat i, x)) l.

(** [multiprocessing.Pool(processes, ...)]: the constructor of the standard
    library raises ValueError ("Number of processes must be at least 1")
    when [processes] is below one; [processes] is not None here. *)
Definition Pool (processes : Z) : M Z :=
  if processes <? 1 then raise ValueError else mret processes.

Section main.
Variable format_reduction : nat → nat → str.

(** [p.map(func, tasks)]: the calls of [func] in the worker processes of the
    pool [p]; how they interleave is not fixed here. *)
Variable pool_map : Z → (Z * str * str * str → M ()) → list (Z * str * str * str) → M ().

(** The body of [if __name__ == "__main__"], for parsed arguments; [listing]
    is [os.listdir(args.directory)] restricted to regular files. *)
Definition main (directory output : str) (listing : list str) : M () :=
  let files := filter (λ f, endswith f (py ".pdf")) listing in
  let files_num := Z.of_nat (length files) in
  logger ← Logger.__init__ files_num;
  p ← Pool files_num;
  pool_map p (organize_file format_reduction logger)
    ((λ '(i, f), (i, f, directory, output)) <$> enumerate (sorted files)).
End main.

(** ** The terminal that receives standard output

    A character-cell terminal in the manner of ECMA-48 and the VT100: a
    screen of [length (rows t)] rows, a cursor, and a parser for the control
    sequences [ESC [ parameters final]. A row is kept without its trailing
    blanks. The terminal line discipline turns LF into CR LF, so LF also
    returns to the first column.

    The terminal knows how many cells each character takes ([cells], the
    [wcwidth] of its font and locale). The model places the characters of one
    cell, and it follows the control characters and control sequences that
    [Logger] prints. Whatever else arrives (a wide or a combining character,
    another control character or control sequence) puts the model into the
    state [Undefined], in which it says nothing more about the screen. *)
Module Terminal.

Inductive parser : Set :=
  | Ground
  | Escape
  | Csi (params : str)
  | Undefined.

Record tty : Set := {
  rows : list str;
  row : nat;
  col : nat;
  cursor_visible : bool;
  state : parser;
  cells : char → nat
}.

Definition SPACE : char := 32%N.

(** C0 controls, DEL and C1 controls do not print. *)
Definition is_control (c : char) : bool :=
  (c <? 32)%N || (c =? 127)%N || ((128 <=? c)%N && (c <? 160)%N).

Definition set_cell (line : str) (col : nat) (c : char) : str :=
  take col (line ++ replicate (col - length line) SPACE) ++ c :: drop (S col) line.

Definition set_state (s : parser) (t : tty) : tty :=
  {| rows := rows t; row := row t; col := col t;
     cursor_visible := cursor_visible t; state := s; cells := cells t |}.

(** Move to the first column of the next row; at the bottom row the screen
    scrolls up by one row instead. *)
Definition line_feed (t : tty) : tty :=
  if bool_decide (S (row t) < length (rows t))%nat then
    {| rows := rows t; row := S (row t); col := 0;
       cursor_visible := cursor_visible t; state := state t; cells := cells t |}
  else
    {| rows := drop 1 (rows t) ++ [[]]; row := row t; col := 0;
       cursor_visible := cursor_visible t; state := state t; cells := cells t |}.

Section geometry.
(** The number of columns. *)
Variable width : nat.

(** Print [c] at the cursor, for a character of one cell. A cursor past the
    last column (after a character was printed there) first wraps to the next
    row. *)
Definition put (c : char) (t : tty) : tty :=
  if bool_decide (cells t c = 1%nat) then
    let t := if bool_decide (width ≤ col t)%nat then line_feed t else t in
    {| rows := alter (λ line, set_cell line (col t) c) (row t) (rows t);
       row := row t; col := S (col t);
       cursor_visible := cursor_visible t; state := state t; cells := cells t |}
  else set_state Undefined t.

Fixpoint number_from (acc : N) (ps : str) : option N :=
  match ps with
  | [] => Some acc
  | c :: ps' =>
      if ((48 <=? c)%N && (c <=? 57)%N)%bool
      then number_from (acc * 10 + (c - 48))%N ps'
      else None
  end.

(** The count of a cursor movement: one when it is absent or zero. *)
Definition count_param (ps : str) : option nat :=
  n ← number_from 0 ps; Some (N.to_nat n `max` 1)%nat.

(** CSI n E, cursor next line: down [n] rows, not below the last row. *)
Definition cursor_next_line (n : nat) (t : tty) : tty :=
  {| rows := rows t; row := (row t + n) `min` (length (rows t) - 1); col := 0;
     cursor_visible := cursor_visible t; state := state t; cells := cells t |}.

(** CSI n F, cursor previous line: up [n] rows, not above the first row. *)
Definition cursor_prev_line (n : nat) (t : tty) : tty :=
  {| rows := rows t; row := row t - n; col := 0;
     cursor_visible := cursor_visible t; state := state t; cells := cells t |}.

(** CSI n K, erase in line: from the cursor to the end of the row (0) or all
    of the row (2); the cursor stays. A cursor past the last column stands
    on the last column. *)
Definition erase_in_line (n : N) (t : tty) : tty :=
  let erase (line : str) : str :=
    if (n =? 0)%N then take (col t `min` pred width) line else [] in
  {| rows := alter erase (row t) (rows t); row := row t; col := col t;
     cursor_visible := cursor_visible t; state := state t; cells := cells t |}.

Definition set_cursor_visible (b : bool) (t : tty) : tty :=
  {| rows := rows t; row := row t; col := col t;
     cursor_visible := b; state := state t; cells := cells t |}.

(** The effect of [ESC [ ps final], for the sequences that [Logger] prints:
    cursor next line (E), cursor previous line (F), erase in line (K) and
    show or hide the cursor (?25h, ?25l). *)
Definition dispatch (ps : str) (final : char) (t : tty) : tty :=
  if (final =? 69)%N then                                  (* E *)
    from_option (λ n, cursor_next_line n t) (set_state Undefined t) (count_param ps)
  else if (final =? 70)%N then                             (* F *)
    from_option (λ n, cursor_prev_line n t) (set_state Undefined t) (count_param ps)
  else if (final =? 75)%N then                             (* K *)
    match number_from 0 ps with
    | Some n =>
        if ((n =? 0)%N || (n =? 2)%N)%bool then erase_in_line n t
        else set_state Undefined t
    | None => set_state Undefined t
    end
  else if bool_decide (ps = py "?25") then
    if (final =? 104)%N then set_cursor_visible true t     (* h *)
    else if (final =? 108)%N then set_cursor_visible false t (* l *)
    else set_state Undefined t
  else set_state Undefined t.

(** One character of output. *)
Definition feed (t : tty) (c : char) : tty :=
  match state t with
  | Ground =>
      if (c =? ESC)%N then set_state Escape t
      else if (c =? LF)%N then line_feed t
      else if (c =? CR)%N then
        {| rows := rows t; row := row t; col := 0;
           cursor_visible := cursor_visible t; state := Ground; cells := cells t |}
      else if is_control c then set_state Undefined t
      else put c t
  | Escape =>
      if (c =? 91)%N then set_state (Csi []) t               (* [ *)
      else set_state Undefined t
  | Csi ps =>
      if ((48 <=? c)%N && (c <=? 63)%N)%bool then set_state (Csi (ps ++ [c])) t
      else if ((64 <=? c)%N && (c <=? 126)%N)%bool
      then dispatch ps c (set_state Ground t)
      else set_state Undefined t
  | Undefined => t
  end.

Definition run (t : tty) (s : str) : tty := fold_left feed s t.
End geometry.

(** A blank screen of [height] rows with the cursor at its top left, on a
    terminal that shows every character in one cell. *)
Definition blank (height : nat) : tty :=
  {| rows := replicate height []; row := 0; col := 0;
     cursor_visible := true; state := Ground; cells := λ _, 1%nat |}.
End Terminal.

(** ** Vocabulary of the statements *)

(** What [get_real_page_num] makes of the page it has fetched. *)
Definition page_label (page : Page) : result str :=
  last_line ← getitem (splitlines (extractText page)) (-1);
  getitem (split SLASH last_line) 0.

(** [r] is the part of [s] before its first [sep], or all of [s] when [sep]
    does not occur in it. *)
Definition before_first (sep : char) (s r : str) : Prop :=
  (sep ∉ r) ∧ (r = s ∨ ∃ rest, s = r ++ sep :: rest).

(** The block of [num] rows that ends just above the cursor, as left by
    [Logger.__init__]: the cursor is at the start of its row, the block is on
    the screen and no control sequence is pending. *)
Definition reserved (t : Terminal.tty) (num : Z) : Prop :=
  Terminal.state t = Terminal.Ground ∧
  Terminal.col t = 0%nat ∧
  0 ≤ num ≤ Z.of_nat (Terminal.row t) ∧
  (Terminal.row t < length (Terminal.rows t))%nat.

(** The screen row of line [line] of that block. *)
Definition block_row (t : Terminal.tty) (num line : Z) : nat :=
  Z.to_nat (Z.of_nat (Terminal.row t) - num + line).

(** What C9 asks of one call of [Logger.log], for a terminal that was in
    state [t] before the call and is in state [t'] after it. *)
Definition rewrites_only_line (t t' : Terminal.tty) (num line : Z) (msg : str) : Prop :=
  Terminal.rows t' = <[block_row t num line := msg]> (Terminal.rows t) ∧
  Terminal.row t' = Terminal.row t ∧
  Terminal.col t' = Terminal.col t.

(** The four pieces that one call [log(line, msg)] of a logger of [num]
    lines prints. *)
Definition log_text (num line : Z) (msg : str) : str :=
  (ESC :: py "[" ++ str_of_int (num - line) ++ py "F") ++
  (ESC :: py "[2K") ++ msg ++
  (ESC :: py "[" ++ str_of_int (num - line) ++ py "E").

(** The page that comes last among those that [pairs] has under [label]. *)
Definition last_with_label {K V : Type} `{EqDecision K}
    (pairs : list (K * V)) (label : K) : option V :=
  snd <$> last (filter (λ kv, kv.1 = label) pairs).

(** The page at a page number, for page numbers within the document. *)
Definition page_at (pdf : PdfFileReader) (i : nat) : Page :=
  default {| extractText := []; body := 0 |} (pdf !! i).

(** ** Vocabulary of the further properties *)

(** What is left to split after the line boundary [c] that stands before
    [s]: a line feed right after a carriage return belongs to the boundary. *)
Definition after_boundary (c : char) (s : str) : str :=
  match s with
  | c' :: s'' => if bool_decide (c = CR ∧ c' = LF) then s'' else s
  | [] => s
  end.

(** A text that the terminal prints as it is: no control characters. *)
Definition printable (s : str) : Prop :=
  Forall (λ c, Terminal.is_control c = false) s.

(** The progress message of [organize_file] for page number [i], when
    [spinner] frames have been taken before. *)
Definition progress_text (file_name : str) (num_pages spinner i : nat) : str :=
  (next_spinner spinner).1 :: py " " ++ file_name ++ py ": "
    ++ str_of_int (Z.of_nat i + 1) ++ py "/" ++ str_of_int (Z.of_nat num_pages).

(** The progress messages of the first loop over [todo]. *)
Fixpoint progress_texts (file_name : str) (num_pages : nat) (todo : list nat)
    (spinner : nat) : list str :=
  match todo with
  | [] => []
  | i :: todo' =>
      progress_text file_name num_pages spinner i
        :: progress_texts file_name num_pages todo' (S spinner)
  end.

(** The completion message of [organize_file]. *)
Definition completion_text (format_reduction : nat → nat → str) (file_name : str)
    (num_pages new_num_pages : nat) : str :=
  0x2713%N :: py " " ++ file_name ++ py ": " ++ str_of_int (Z.of_nat num_pages)
    ++ py " -> " ++ str_of_int (Z.of_nat new_num_pages) ++ py " pages ("
    ++ 0x2193%N :: py " " ++ format_reduction num_pages new_num_pages ++ py "%)".

(** A message that one row of the terminal [t] of [width] columns shows as
    it is: standard output can encode it, it has no control character, every
    character of it takes one cell on [t], and it is not longer than the
    row. *)
Definition fits_row (width : nat) (t : Terminal.tty) (msg : str) : Prop :=
  encodable msg = true ∧
  printable msg ∧
  Forall (λ c, Terminal.cells t c = 1%nat) msg ∧
  (length msg ≤ width)%nat.
(** ** Properties of the page table *)

Section reorder_facts.
Context {K V : Type} `{Countable K}.
Implicit Types (d : OrderedDict.t K V) (l : list (K * V)) (k : K) (v : V).

Local Abbreviation step := (λ d (kv : K * V), OrderedDict.setitem d kv.1 kv.2).

Lemma filter_all {A} (P : A → Prop) `{∀ x, Decision (P x)} (xs : list A) :
  (∀ x, x ∈ xs → P x) → filter P xs = xs.
Proof.
  induction xs as [|x xs IH]; intros HP; [done|].
  rewrite filter_cons_True by (apply HP; left).
  f_equal. apply IH. intros y Hy. apply HP. by right.
Qed.

Lemma setitem_fresh d k v :
  k ∉ d.*1 → OrderedDict.setitem d k v = d ++ [(k, v)].
Proof.
  induction d as [|[k' v'] d IH]; csimpl; [done|].
  intros Hk. apply not_elem_of_cons in Hk as [Hne Hk].
  destruct (decide (k' = k)); [congruence|]. by rewrite IH.
Qed.

Lemma setitem_keys_present d k v :
  k ∈ d.*1 → (OrderedDict.setitem d k v).*1 = d.*1.
Proof.
  induction d as [|[k' v'] d IH]; csimpl; [by intros ?%elem_of_nil|].
  intros Hk. destruct (decide (k' = k)); [done|].
  apply elem_of_cons in Hk as [->|Hk]; [done|]. f_equal/=. by apply IH.
Qed.

Lemma setitem_app_l d1 d2 k v :
  k ∈ d1.*1 →
  OrderedDict.setitem (d1 ++ d2) k v = OrderedDict.setitem d1 k v ++ d2.
Proof.
  induction d1 as [|[k' v'] d1 IH]; csimpl; [by intros ?%elem_of_nil|].
  intros Hk. destruct (decide (k' = k)); [done|].
  apply elem_of_cons in Hk as [->|Hk]; [done|]. by rewrite IH.
Qed.

Lemma setitem_app_r d1 d2 k v :
  k ∉ d1.*1 →
  OrderedDict.setitem (d1 ++ d2) k v = d1 ++ OrderedDict.setitem d2 k v.
Proof.
  induction d1 as [|[k' v'] d1 IH]; csimpl; [done|].
  intros Hk. apply not_elem_of_cons in Hk as [Hne Hk].
  destruct (decide (k' = k)); [congruence|]. by rewrite IH.
Qed.

Lemma setitem_get d k v k' :
  OrderedDict.get (OrderedDict.setitem d k v) k' =
  if decide (k = k') then Some v else OrderedDict.get d k'.
Proof.
  induction d as [|[k0 v0] d IH]; csimpl.
  - destruct (decide (k = k')); done.
  - destruct (decide (k0 = k)) as [->|Hne]; csimpl.
    + destruct (decide (k = k')); done.
    + destruct (decide (k0 = k')) as [->|?]; [|done].
      destruct (decide (k = k')); congruence.
Qed.

Lemma get_Some_elem_of d k v :
  OrderedDict.get d k = Some v → (k, v) ∈ d.
Proof.
  induction d as [|[k0 v0] d IH]; csimpl; [done|].
  destruct (decide (k0 = k)) as [->|?].
  - intros [= ->]. left.
  - intros ?. right. auto.
Qed.

Lemma elem_of_first_seen (ks : list K) k : k ∈ first_seen ks ↔ k ∈ ks.
Proof.
  induction ks as [|k0 ks IH]; csimpl; [done|].
  rewrite !elem_of_cons, list_elem_of_filter, IH.
  destruct (decide (k = k0)) as [->|Hne]; [split; by left|].
  split; [intros [?|[_ ?]]; [done|by right] | intros [?|?]; [done|by right]].
Qed.

Lemma NoDup_first_seen (ks : list K) : NoDup (first_seen ks).
Proof.
  induction ks as [|k ks IH]; csimpl; [constructor|].
  constructor.
  - rewrite list_elem_of_filter. by intros [Hne _].
  - by apply NoDup_filter.
Qed.

Lemma first_seen_app (ks1 ks2 : list K) :
  first_seen (ks1 ++ ks2) =
  first_seen ks1 ++ filter (λ k, k ∉ ks1) (first_seen ks2).
Proof.
  induction ks1 as [|k ks1 IH]; csimpl.
  - symmetry. apply filter_all. intros k _. apply not_elem_of_nil.
  - f_equal. rewrite IH, filter_app, list_filter_filter. f_equal.
    apply list_filter_iff. intros k'. rewrite not_elem_of_cons. tauto.
Qed.

Lemma fold_setitem_keys l d :
  (fold_left step l d).*1 = d.*1 ++ filter (λ k, k ∉ d.*1) (first_seen l.*1).
Proof.
  revert d. induction l as [|[k v] l IH]; intros d; csimpl.
  - by rewrite app_nil_r.
  - rewrite IH. destruct (decide (k ∈ d.*1)) as [Hin|Hnin].
    + rewrite setitem_keys_present by done. f_equal.
      rewrite filter_cons_False by (intros Hn; apply Hn, Hin).
      rewrite list_filter_filter. apply list_filter_iff.
      intros k'. split; [|by intros [? ?]].
      intros Hk'. split; [done|]. by intros ->.
    + rewrite setitem_fresh by done.
      rewrite fmap_app, <- app_assoc. simpl. f_equal.
      rewrite filter_cons_True by done. f_equal.
      rewrite list_filter_filter. apply list_filter_iff.
      intros k'. rewrite not_elem_of_app, list_elem_of_singleton. tauto.
Qed.

(** The labels of the table: the labels of the input, each where it comes
    first. *)
Lemma page_table_keys l : (page_table l).*1 = first_seen l.*1.
Proof.
  unfold page_table. rewrite fold_setitem_keys. csimpl.
  apply filter_all. intros k _. apply not_elem_of_nil.
Qed.

Lemma page_table_NoDup l : NoDup (page_table l).*1.
Proof. rewrite page_table_keys. apply NoDup_first_seen. Qed.

Lemma fold_setitem_get l d k :
  OrderedDict.get (fold_left step l d) k =
  match OrderedDict.get (fold_left step l OrderedDict.empty) k with
  | Some v => Some v
  | None => OrderedDict.get d k
  end.
Proof.
  revert d. induction l as [|[k0 v0] l IH] using rev_ind; intros d; [done|].
  rewrite !fold_left_app. simpl. rewrite !setitem_get.
  destruct (decide (k0 = k)); [done|]. apply IH.
Qed.

(** The page of a label is the page of its last occurrence. *)
Lemma page_table_last l1 k v l2 :
  k ∉ l2.*1 → (k, v) ∈ page_table (l1 ++ (k, v) :: l2).
Proof.
  intros Hk. apply get_Some_elem_of. unfold page_table.
  rewrite fold_left_app. csimpl.
  rewrite fold_setitem_get.
  destruct (OrderedDict.get (fold_left step l2 OrderedDict.empty) k) as [v'|] eqn:Hg.
  - apply get_Some_elem_of, (list_elem_of_fmap_2 fst) in Hg.
    fold (page_table l2) in Hg. rewrite page_table_keys, elem_of_first_seen in Hg.
    done.
  - rewrite setitem_get. by rewrite decide_True.
Qed.

Lemma NoDup_split_unique (ks1 ks2 ks1' ks2' : list K) k :
  NoDup (ks1 ++ k :: ks2) →
  ks1 ++ k :: ks2 = ks1' ++ k :: ks2' → ks1 = ks1' ∧ ks2 = ks2'.
Proof.
  revert ks1'. induction ks1 as [|k1 ks1 IH]; intros ks1' Hnd Heq.
  - destruct ks1' as [|k1' ks1']; simplify_eq/=; [done|].
    apply NoDup_cons in Hnd as [Hnin _]. destruct Hnin.
    apply elem_of_app. right. left.
  - destruct ks1' as [|k1' ks1']; simplify_eq/=.
    + apply NoDup_cons in Hnd as [Hnin _]. destruct Hnin.
      apply elem_of_app. right. left.
    + apply NoDup_cons in Hnd as [_ Hnd].
      destruct (IH _ Hnd H1) as [-> ->]. done.
Qed.

(** Feeding a table with pairwise distinct labels gives the same table. *)
Lemma fold_setitem_NoDup l d :
  NoDup (d.*1 ++ l.*1) → fold_left step l d = d ++ l.
Proof.
  revert d. induction l as [|[k v] l IH]; intros d Hnd; csimpl.
  - by rewrite app_nil_r.
  - assert (k ∉ d.*1) as Hk.
    { apply NoDup_app in Hnd as (_ & Hd & _). intros Hin.
      apply (Hd _ Hin). left. }
    rewrite setitem_fresh by done. rewrite IH.
    + by rewrite <- app_assoc.
    + rewrite fmap_app, <- app_assoc. done.
Qed.
End reorder_facts.

(** C1: when a label is repeated in the input, the page table keeps one entry
    for it; the entry holds the page of the label's last occurrence and stands
    after exactly the labels seen before the label's first occurrence, so at
    the position where the label first appeared. *)
Theorem C1_repeated_label_last_page_first_position
    {K V : Type} `{Countable K}
    (pairs before mid after : list (K * V)) (k : K) (v_first v_last : V) :
  pairs = before ++ (k, v_first) :: mid ++ (k, v_last) :: after →
  k ∉ before.*1 →
  k ∉ after.*1 →
  ∃ pre post : list (K * V),
    OrderedDict.items (page_table pairs) = pre ++ (k, v_last) :: post ∧
    reorder pairs = pre.*2 ++ v_last :: post.*2 ∧
    pre.*1 = first_seen before.*1 ∧
    (k ∉ pre.*1) ∧ (k ∉ post.*1).
Proof.
  intros -> Hbefore Hafter.
  pose proof (page_table_last (before ++ (k, v_first) :: mid) k v_last after Hafter)
    as Hin.
  rewrite <- app_assoc in Hin. simpl in Hin.
  apply list_elem_of_split in Hin as (pre & post & Hsplit).
  pose proof (page_table_keys (before ++ (k, v_first) :: mid ++ (k, v_last) :: after))
    as Hkeys.
  pose proof (page_table_NoDup (before ++ (k, v_first) :: mid ++ (k, v_last) :: after))
    as Hnd.
  rewrite Hsplit in Hkeys, Hnd.
  rewrite fmap_app, fmap_cons in Hkeys, Hnd. simpl in Hkeys, Hnd.
  rewrite fmap_app, fmap_cons, first_seen_app in Hkeys. simpl in Hkeys.
  rewrite filter_cons_True in Hkeys by done.
  apply NoDup_split_unique in Hkeys as [Hpre Hpost]; [|done].
  exists pre, post. unfold reorder, OrderedDict.items. rewrite Hsplit.
  split_and!; [done| by rewrite fmap_app | done | |].
  - apply NoDup_app in Hnd as (_ & Hd & _). intros Hk. apply (Hd _ Hk). left.
  - apply NoDup_app in Hnd as (_ & _ & Hd). by apply NoDup_cons in Hd as [? _].
Qed.

Lemma C1_repeated_label_witness :
  ∃ pre post : list (str * nat),
    OrderedDict.items
      (page_table [(py "1", 0); (py "2", 1); (py "1", 2); (py "3", 3)]%nat)
      = pre ++ (py "1", 2%nat) :: post ∧
    reorder [(py "1", 0); (py "2", 1); (py "1", 2); (py "3", 3)]%nat
      = pre.*2 ++ 2%nat :: post.*2 ∧
    pre.*1 = first_seen [] ∧
    (py "1" ∉ pre.*1) ∧ (py "1" ∉ post.*1).
Proof.
  apply (C1_repeated_label_last_page_first_position
           [(py "1", 0); (py "2", 1); (py "1", 2); (py "3", 3)]%nat
           [] [(py "2", 1%nat)] [(py "3", 3%nat)] (py "1") 0%nat 2%nat).
  - reflexivity.
  - apply not_elem_of_nil.
  - vm_compute. intros Hin. by apply list_elem_of_singleton in Hin.
Defined.

(** C2: the output of reorder has as many pages as the input has distinct
    labels, hence no more pages than the input. *)
Theorem C2_output_length {K V : Type} `{Countable K} (pairs : list (K * V)) :
  length (reorder pairs) = distinct_labels pairs ∧
  (length (reorder pairs) ≤ length pairs)%nat.
Proof.
  assert (length (reorder pairs) = length (first_seen pairs.*1)) as Hlen.
  { unfold reorder, OrderedDict.items.
    rewrite length_fmap, <- (length_fmap fst). by rewrite page_table_keys. }
  assert (length (first_seen pairs.*1) = distinct_labels pairs) as Hdist.
  { unfold distinct_labels.
    rewrite <- (size_list_to_set (C := gset K)) by apply NoDup_first_seen.
    f_equal. apply set_eq. intros k.
    by rewrite !elem_of_list_to_set, elem_of_first_seen. }
  split; [congruence|].
  rewrite Hlen, <- (length_fmap fst pairs).
  generalize (pairs.*1). clear. intros ks.
  induction ks as [|k ks IH]; simpl; [lia|].
  pose proof (length_filter (λ k', k' ≠ k) (first_seen ks)). lia.
Qed.

(** C8: reorder is idempotent. Feeding the entries of the page table, which
    pair every surviving page with its label, through reorder again gives the
    same table and the same pages. *)
Theorem C8_reorder_idempotent {K V : Type} `{Countable K} (pairs : list (K * V)) :
  page_table (OrderedDict.items (page_table pairs)) = page_table pairs ∧
  reorder (OrderedDict.items (page_table pairs)) = reorder pairs.
Proof.
  assert (page_table (OrderedDict.items (page_table pairs)) = page_table pairs)
    as Hfix.
  { unfold OrderedDict.items. unfold page_table at 1.
    rewrite fold_setitem_NoDup; [done|]. apply page_table_NoDup. }
  split; [done|]. unfold reorder. by rewrite Hfix.
Qed.

(** ** Text primitives *)

Lemma splitlines_from_nil cur s : splitlines_from cur s = [] ↔ cur = [] ∧ s = [].
Proof.
  revert cur. induction s as [|c s IH]; intros cur; simpl.
  - destruct cur; split; (done || by intros [? ?]).
  - destruct (is_linebreak c); [split; (done || by intros [? ?])|].
    rewrite IH. split; by intros [? ?].
Qed.

Lemma splitlines_nil s : splitlines s = [] ↔ s = [].
Proof.
  unfold splitlines. rewrite splitlines_from_nil.
  split; [by intros [_ ?]|done].
Qed.

Lemma getitem_last_nil {A} : getitem ([] : list A) (-1) = Raise IndexError.
Proof. reflexivity. Qed.

Lemma getitem_last_snoc {A} (l : list A) x : getitem (l ++ [x]) (-1) = Ok x.
Proof.
  unfold getitem. simpl. rewrite length_app. simpl.
  destruct (Z.ltb_spec (-1 + Z.of_nat (length l + 1)) 0) as [Hlt|Hge]; [lia|].
  replace (Z.to_nat (-1 + Z.of_nat (length l + 1))) with (length l + 0)%nat by lia.
  by rewrite lookup_app_r, Nat.add_sub' by lia.
Qed.

Lemma split_from_head sep cur s :
  ∃ r tl, split_from sep cur s = (rev cur ++ r) :: tl ∧ before_first sep s r.
Proof.
  revert cur. induction s as [|c s IH]; intros cur; simpl.
  - exists [], []. rewrite app_nil_r. split; [done|].
    split; [apply not_elem_of_nil|by left].
  - case_bool_decide as Hc.
    + subst c. exists [], (split_from sep [] s). rewrite app_nil_r.
      split; [done|]. split; [apply not_elem_of_nil|]. right. by exists s.
    + destruct (IH (c :: cur)) as (r & tl & -> & Hnot & Hr).
      exists (c :: r), tl. simpl. rewrite <- app_assoc. split; [done|].
      split.
      * rewrite not_elem_of_cons. split; [congruence|done].
      * destruct Hr as [->|[rest ->]]; [by left|]. right. by exists rest.
Qed.

Lemma getitem_split_0 s :
  ∃ r, getitem (split SLASH s) 0 = Ok r ∧ before_first SLASH s r.
Proof.
  destruct (split_from_head SLASH [] s) as (r & tl & Heq & Hr).
  exists r. unfold split. by rewrite Heq.
Qed.

Lemma before_first_absent sep s r : sep ∉ s → before_first sep s r → r = s.
Proof.
  intros Hs [_ [->|[rest ->]]]; [done|].
  destruct Hs. apply elem_of_app. right. left.
Qed.

(** ** get_real_page_num *)

Lemma get_real_page_num_page pdf i page :
  pdf !! i = Some page → get_real_page_num pdf i = page_label page.
Proof. intros Hi. unfold get_real_page_num, getPage. by rewrite Hi. Qed.

Lemma page_label_no_text page :
  extractText page = [] → page_label page = Raise IndexError.
Proof. intros Htext. unfold page_label. by rewrite Htext. Qed.

Lemma page_label_last_line page lines last_line :
  splitlines (extractText page) = lines ++ [last_line] →
  ∃ r, page_label page = Ok r ∧ before_first SLASH last_line r.
Proof.
  intros Hlines. unfold page_label. rewrite Hlines, getitem_last_snoc.
  apply getitem_split_0.
Qed.

Lemma page_label_text page :
  extractText page ≠ [] → ∃ r, page_label page = Ok r.
Proof.
  intros Htext.
  destruct (splitlines (extractText page)) as [|l ls _] eqn:Hl using rev_ind.
  - by apply splitlines_nil in Hl.
  - destruct (page_label_last_line _ _ _ Hl) as (r & -> & _). by exists r.
Qed.

Lemma page_label_raises page e :
  page_label page = Raise e → e = IndexError ∧ extractText page = [].
Proof.
  intros Hraise. destruct (decide (extractText page = [])) as [Htext|Htext].
  - rewrite page_label_no_text in Hraise by done. by injection Hraise as <-.
  - destruct (page_label_text _ Htext) as [r Hr]. congruence.
Qed.

(** ** The page table and the values it holds *)

Lemma elem_of_setitem {K V} `{EqDecision K} (d : OrderedDict.t K V) k v x :
  x ∈ OrderedDict.setitem d k v → x ∈ d ∨ x = (k, v).
Proof.
  induction d as [|[k' v'] d IH]; simpl.
  - intros Hx%list_elem_of_singleton. by right.
  - destruct (decide (k' = k)) as [->|Hne].
    + intros [->|Hx]%elem_of_cons; [by right|]. left. by right.
    + intros [->|Hx]%elem_of_cons; [left; left|].
      destruct (IH Hx) as [?|?]; [left; by right|by right].
Qed.

Lemma elem_of_fold_setitem {K V} `{EqDecision K} (l : list (K * V)) d x :
  x ∈ fold_left (λ d kv, OrderedDict.setitem d kv.1 kv.2) l d → x ∈ d ∨ x ∈ l.
Proof.
  revert d. induction l as [|[k v] l IH]; intros d; simpl; [by left|].
  intros [Hx|Hx]%IH; [|right; by right].
  apply elem_of_setitem in Hx as [? | ->]; [by left|right; left].
Qed.

Lemma setitem_fmap {K V W} `{EqDecision K} (f : V → W) (d : list (K * V)) k v :
  OrderedDict.setitem (prod_map id f <$> d) k (f v) =
  prod_map id f <$> OrderedDict.setitem d k v.
Proof.
  induction d as [|[k' v'] d IH]; csimpl; [done|].
  destruct (decide (k' = k)); csimpl; [done|]. by rewrite IH.
Qed.

Lemma fold_setitem_fmap {K V W} `{EqDecision K} (f : V → W) (l d : list (K * V)) :
  fold_left (λ d kv, OrderedDict.setitem d kv.1 kv.2) (prod_map id f <$> l)
    (prod_map id f <$> d) =
  prod_map id f <$> fold_left (λ d kv, OrderedDict.setitem d kv.1 kv.2) l d.
Proof.
  revert d. induction l as [|[k v] l IH]; intros d; csimpl; [done|].
  by rewrite setitem_fmap, IH.
Qed.

Lemma reorder_fmap {K V W} `{Countable K} (f : V → W) (l : list (K * V)) :
  reorder (prod_map id f <$> l) = f <$> reorder l.
Proof.
  unfold reorder, OrderedDict.items, page_table.
  change (@OrderedDict.empty K W) with (prod_map id f <$> @OrderedDict.empty K V).
  rewrite fold_setitem_fmap, <- !list_fmap_compose.
  by apply list_fmap_ext.
Qed.

(** ** Decimal numbers in control sequences *)

Lemma digits_from_number fuel n acc :
  (n < 2 ^ N.of_nat fuel)%N →
  ∃ ds,
    digits_from fuel n acc = ds ++ acc ∧
    Forall (λ c, 48 ≤ c ≤ 57)%N ds ∧
    ∀ rest, Terminal.number_from 0 (ds ++ rest) = Terminal.number_from n rest.
Proof.
  revert n acc. induction fuel as [|fuel IH]; intros n acc Hn.
  - exists []. simpl in *. split_and!; [done|constructor|].
    intros rest. by replace n with 0%N by lia.
  - simpl. destruct (N.ltb_spec n 10) as [Hlt|Hge].
    + exists [digit (n mod 10)]. rewrite N.mod_small by done.
      split_and!; [done|constructor; [unfold digit; lia|constructor]|].
      intros rest. unfold digit. simpl.
      destruct (N.leb_spec 48 (48 + n)); [|lia].
      destruct (N.leb_spec (48 + n) 57); [|lia]. simpl.
      f_equal. lia.
    + assert (n mod 10 < 10)%N as Hmod by (apply N.mod_lt; lia).
      pose proof (N.Div0.div_mod n 10) as Hdm.
      assert (n / 10 < 2 ^ N.of_nat fuel)%N as Hdiv.
      { apply N.Div0.div_lt_upper_bound.
        rewrite Nat2N.inj_succ, N.pow_succ_r' in Hn. lia. }
      revert Hmod Hdm Hdiv.
      generalize (n mod 10)%N (n / 10)%N. intros m q Hmod Hdm Hdiv.
      destruct (IH q (digit m :: acc) Hdiv) as (ds & -> & Hds & Hnum).
      exists (ds ++ [digit m]). rewrite <- app_assoc.
      split_and!; [done| |].
      * apply Forall_app. split; [done|]. constructor; [|constructor].
        unfold digit. lia.
      * intros rest. rewrite <- app_assoc, Hnum. unfold digit. simpl.
        destruct (N.leb_spec 48 (48 + m)); [|lia].
        destruct (N.leb_spec (48 + m) 57); [|lia]. simpl.
        f_equal. lia.
Qed.

Lemma str_of_N_number n :
  Forall (λ c, 48 ≤ c ≤ 57)%N (str_of_N n) ∧
  Terminal.number_from 0 (str_of_N n) = Some n.
Proof.
  unfold str_of_N.
  destruct (digits_from_number (S (N.to_nat (N.log2 n))) n []) as (ds & -> & Hds & Hnum).
  - rewrite Nat2N.inj_succ, N2Nat.id.
    destruct (decide (n = 0%N)) as [->|Hn]; [done|].
    apply N.log2_spec. lia.
  - rewrite app_nil_r. split; [done|].
    specialize (Hnum []). by rewrite app_nil_r in Hnum.
Qed.

Lemma str_of_int_count z :
  1 ≤ z →
  Forall (λ c, 48 ≤ c ≤ 57)%N (str_of_int z) ∧
  Terminal.count_param (str_of_int z) = Some (Z.to_nat z).
Proof.
  intros Hz. unfold str_of_int. destruct (Z.ltb_spec z 0); [lia|].
  destruct (str_of_N_number (Z.to_N z)) as [Hds Hnum].
  split; [done|]. unfold Terminal.count_param. rewrite Hnum. simpl.
  f_equal. lia.
Qed.

(** ** Printing *)

Lemma bind_ok {A B} (m : M A) (f : A → M B) w a w' :
  m w = (Ok a, w') → (m ≫= f) w = f a w'.
Proof. intros Hm. unfold mbind, M_bind. by rewrite Hm. Qed.

Lemma bind_raise {A B} (m : M A) (f : A → M B) w e w' :
  m w = (Raise e, w') → (m ≫= f) w = (Raise e, w').
Proof. intros Hm. unfold mbind, M_bind. by rewrite Hm. Qed.

Lemma encodable_cons c s : encodable (c :: s) = encodable_char c && encodable s.
Proof. reflexivity. Qed.

Lemma encodable_app s1 s2 : encodable (s1 ++ s2) = encodable s1 && encodable s2.
Proof. apply forallb_app. Qed.

Lemma encodable_digits ds : Forall (λ c, 48 ≤ c ≤ 57)%N ds → encodable ds = true.
Proof.
  induction 1 as [|c ds Hc _ IH]; [done|].
  rewrite encodable_cons, IH. unfold encodable_char.
  destruct (N.ltb_spec c 0xD800); [done|lia].
Qed.

Lemma encodable_str_of_int z : encodable (str_of_int z) = true.
Proof.
  unfold str_of_int. destruct (z <? 0); [rewrite encodable_cons; simpl|];
    apply encodable_digits, str_of_N_number.
Qed.

Lemma encodable_repeat s k : encodable s = true → encodable (mjoin (replicate k s)) = true.
Proof.
  intros Hs. induction k as [|k IH]; [done|].
  change (mjoin (replicate (S k) s)) with (s ++ mjoin (replicate k s)).
  by rewrite encodable_app, Hs, IH.
Qed.

Lemma print_ok s w :
  encodable s = true →
  print s w = (Ok (), {| stdout := stdout w ++ s; files := files w |}).
Proof. intros Hs. unfold print. by rewrite Hs. Qed.

Lemma print_raise s w :
  encodable s = false → print s w = (Raise UnicodeEncodeError, w).
Proof. intros Hs. unfold print. by rewrite Hs. Qed.

Lemma encodable_csi z final :
  encodable_char final = true →
  encodable (ESC :: py "[" ++ str_of_int z ++ [final]) = true.
Proof.
  intros Hfinal. change (ESC :: py "[" ++ ?s) with ([ESC; 91%N] ++ s).
  rewrite !encodable_app, encodable_str_of_int.
  change (encodable [ESC; 91%N]) with true.
  change (encodable [final]) with (encodable_char final && true).
  by rewrite Hfinal.
Qed.

(** A call of [log] whose message can be encoded prints its four pieces. *)
Lemma log_eq self line msg w :
  encodable msg = true →
  Logger.log self line msg w =
  (Ok (), {| stdout := stdout w ++ log_text (Logger.num self) line msg;
             files := files w |}).
Proof.
  intros Hmsg. unfold Logger.log.
  erewrite bind_ok by (apply print_ok, (encodable_csi _ 70%N); reflexivity).
  erewrite bind_ok by (by apply print_ok).
  erewrite bind_ok by (by apply print_ok).
  rewrite print_ok by (apply (encodable_csi _ 69%N); reflexivity).
  cbn [stdout files]. unfold log_text.
  do 2 f_equal. by rewrite <- !app_assoc, <- !app_comm_cons, <- !app_assoc.
Qed.

(** A call of [log] whose message cannot be encoded raises when it comes to
    the message: the cursor has gone to the line and the line is erased. *)
Lemma log_raise self line msg w :
  encodable msg = false →
  Logger.log self line msg w =
  (Raise UnicodeEncodeError,
   {| stdout := stdout w
        ++ (ESC :: py "[" ++ str_of_int (Logger.num self - line) ++ py "F")
        ++ ESC :: py "[2K";
      files := files w |}).
Proof.
  intros Hmsg. unfold Logger.log.
  erewrite bind_ok by (apply print_ok, (encodable_csi _ 70%N); reflexivity).
  erewrite bind_ok by (by apply print_ok).
  erewrite bind_raise by (by apply print_raise).
  cbn [stdout files]. by rewrite <- !app_assoc.
Qed.

Lemma log_files self line msg w : files (Logger.log self line msg w).2 = files w.
Proof.
  destruct (encodable msg) eqn:Hmsg; [by rewrite log_eq|by rewrite log_raise].
Qed.


Lemma init_eq num w :
  Logger.__init__ num w =
  (Ok {| Logger.num := num |},
   {| stdout := stdout w ++ str_repeat (ESC :: py "[K" ++ [LF]) num
                  ++ ESC :: py "[?25l";
      files := files w |}).
Proof.
  unfold Logger.__init__.
  erewrite bind_ok by (apply print_ok, encodable_repeat; reflexivity).
  erewrite bind_ok by (by apply print_ok).
  cbn [stdout files]. by rewrite <- app_assoc.
Qed.

(** ** organize_file *)

Lemma get_real_page_num_raises pdf i e :
  get_real_page_num pdf i = Raise e → e = IndexError.
Proof.
  unfold get_real_page_num, getPage. destruct (pdf !! i) as [page|]; simpl.
  - intros Hr. by apply page_label_raises in Hr as [-> _].
  - by intros [= <-].
Qed.

Lemma spinner_frame_encodable spinner :
  encodable_char (next_spinner spinner).1 = true.
Proof.
  unfold next_spinner. cbn [fst].
  assert (spinner mod 10 < 10)%nat as Hlt by (apply Nat.mod_upper_bound; lia).
  revert Hlt. generalize (spinner mod 10)%nat. intros k Hk.
  do 10 (destruct k as [|k]; [reflexivity|]). lia.
Qed.

(** The progress message can be encoded when the file name can. *)
Lemma progress_text_encodable file_name num_pages spinner i :
  encodable (progress_text file_name num_pages spinner i) = encodable file_name.
Proof.
  unfold progress_text.
  rewrite encodable_cons, !encodable_app, !encodable_str_of_int,
    spinner_frame_encodable.
  change (encodable (py " ")) with true. change (encodable (py ": ")) with true.
  change (encodable (py "/")) with true.
  by rewrite !andb_true_r.
Qed.

Lemma all_pages_labelled (pdf : PdfFileReader) :
  Forall (λ page, extractText page ≠ []) pdf →
  ∃ labels, Forall2 (λ page label, page_label page = Ok label) pdf labels.
Proof.
  induction 1 as [|page pdf Hpage _ [labels IH]]; [by exists []|].
  destruct (page_label_text _ Hpage) as [r Hr]. exists (r :: labels).
  by constructor.
Qed.

Lemma page_table_subseteq {K V : Type} `{Countable K} (pairs : list (K * V)) kv :
  kv ∈ page_table pairs → kv ∈ pairs.
Proof.
  intros Hin. apply elem_of_fold_setitem in Hin as [Hin|Hin]; [|done].
  by apply elem_of_nil in Hin.
Qed.

Section organize_facts.
Context (format_reduction : nat → nat → str) (logger : Logger.t).
Context (pdf : PdfFileReader) (line : Z) (file_name : str).

Local Abbreviation step := (λ d (kv : str * nat), OrderedDict.setitem d kv.1 kv.2).

(** One round of the first loop. *)
Lemma collect_pages_cons num_pages i todo spinner pages :
  collect_pages logger pdf line file_name num_pages (i :: todo) spinner pages =
  (Logger.log logger line (progress_text file_name num_pages spinner i);;
   page_num ← lift (get_real_page_num pdf i);
   collect_pages logger pdf line file_name num_pages todo (S spinner)
     (OrderedDict.setitem pages page_num i)).
Proof. reflexivity. Qed.

(** The first loop writes no file, whatever it returns. *)
Lemma collect_pages_files num_pages todo spinner pages w :
  files (collect_pages logger pdf line file_name num_pages todo spinner pages w).2
  = files w.
Proof.
  revert spinner pages w. induction todo as [|i todo IH]; intros spinner pages w.
  - done.
  - rewrite collect_pages_cons.
    pose proof (log_files logger line
                  (progress_text file_name num_pages spinner i) w) as Hlog.
    destruct (Logger.log logger line (progress_text file_name num_pages spinner i) w) as [[[]|e] w1] eqn:Hrun.
    + erewrite bind_ok by exact Hrun.
      unfold lift at 1, mbind at 1, M_bind at 1.
      destruct (get_real_page_num pdf i) as [lbl|e]; [|done].
      by rewrite IH.
    + by erewrite bind_raise by exact Hrun.
Qed.

(** The first loop over pages that all yield a label, for a file name that
    can be printed: every page is entered into the table. *)
Lemma collect_pages_ok num_pages todo labels spinner pages w :
  encodable file_name = true →
  Forall2 (λ i lbl, get_real_page_num pdf i = Ok lbl) todo labels →
  ∃ out,
    collect_pages logger pdf line file_name num_pages todo spinner pages w =
    (Ok (fold_left step (zip labels todo) pages),
     {| stdout := stdout w ++ out; files := files w |}).
Proof.
  intros Hname Hall. revert spinner pages w.
  induction Hall as [|i lbl todo labels Hi _ IH]; intros spinner pages w.
  - exists []. simpl. rewrite app_nil_r. by destruct w.
  - rewrite collect_pages_cons.
    erewrite bind_ok by (by apply log_eq; rewrite progress_text_encodable).
    unfold lift at 1. rewrite Hi.
    unfold mbind at 1, M_bind at 1.
    edestruct IH as [out ->]. simpl. rewrite <- app_assoc. eauto.
Qed.

(** What a normal return of the first loop tells: every page has yielded a
    label and has been entered into the table under it. *)
Lemma collect_pages_inv num_pages todo spinner pages w pages' w' :
  collect_pages logger pdf line file_name num_pages todo spinner pages w
    = (Ok pages', w') →
  ∃ labels,
    Forall2 (λ i lbl, get_real_page_num pdf i = Ok lbl) todo labels ∧
    pages' = fold_left step (zip labels todo) pages.
Proof.
  revert spinner pages w. induction todo as [|i todo IH]; intros spinner pages w.
  - intros [= <- _]. by exists [].
  - rewrite collect_pages_cons.
    destruct (Logger.log logger line (progress_text file_name num_pages spinner i) w) as [[[]|e] w1] eqn:Hrun.
    + erewrite bind_ok by exact Hrun.
      unfold lift at 1, mbind at 1, M_bind at 1.
      destruct (get_real_page_num pdf i) as [lbl|e] eqn:Hi; [|done].
      intros (labels & Hall & ->)%IH. exists (lbl :: labels).
      split; [by constructor|done].
    + by erewrite bind_raise by exact Hrun.
Qed.

Lemma collect_pages_raises num_pages todo spinner pages w i :
  encodable file_name = true →
  i ∈ todo → get_real_page_num pdf i = Raise IndexError →
  ∃ out,
    collect_pages logger pdf line file_name num_pages todo spinner pages w =
    (Raise IndexError, {| stdout := stdout w ++ out; files := files w |}).
Proof.
  intros Hname Hin Hi. revert spinner pages w.
  induction todo as [|j todo IH]; intros spinner pages w.
  - by apply elem_of_nil in Hin.
  - rewrite collect_pages_cons.
    erewrite bind_ok by (by apply log_eq; rewrite progress_text_encodable).
    unfold lift at 1, mbind at 1, M_bind at 1.
    destruct (get_real_page_num pdf j) as [lbl|e] eqn:Hj.
    + apply elem_of_cons in Hin as [->|Hin]; [congruence|].
      edestruct (IH Hin) as [out ->]. simpl. rewrite <- app_assoc. eauto.
    + apply get_real_page_num_raises in Hj as ->. simpl. eauto.
Qed.

Lemma add_pages_ok (entries : list (str * nat)) writer :
  Forall (λ e, e.2 < length pdf)%nat entries →
  add_pages pdf entries writer = Ok (writer ++ (page_at pdf <$> entries.*2)).
Proof.
  intros Hall. revert writer.
  induction Hall as [|[k i] entries Hi _ IH]; intros writer; csimpl.
  - by rewrite app_nil_r.
  - apply lookup_lt_is_Some_2 in Hi as [page Hpage]. simpl in Hpage.
    unfold getPage, page_at. rewrite Hpage. simpl.
    rewrite IH, <- app_assoc. done.
Qed.

Lemma page_at_seq : page_at pdf <$> seq 0 (length pdf) = pdf.
Proof.
  apply list_eq. intros i. rewrite list_lookup_fmap.
  destruct (decide (i < length pdf)%nat) as [Hi|Hi].
  - rewrite lookup_seq_lt by done. simpl. unfold page_at.
    apply lookup_lt_is_Some_2 in Hi as [page Hpage]. by rewrite Hpage.
  - rewrite lookup_seq_ge, lookup_ge_None_2 by lia. done.
Qed.

Lemma labels_by_number labels :
  Forall2 (λ page lbl, page_label page = Ok lbl) pdf labels →
  Forall2 (λ i lbl, get_real_page_num pdf i = Ok lbl) (seq 0 (length pdf)) labels.
Proof.
  intros Hall. pose proof (Forall2_length _ _ _ Hall) as Hlen.
  apply Forall2_same_length_lookup_2; [by rewrite length_seq|].
  intros i j lbl [-> Hi]%lookup_seq Hlbl. simpl.
  apply lookup_lt_is_Some_2 in Hi as [page Hpage].
  rewrite (get_real_page_num_page _ _ _ Hpage).
  by apply (Forall2_lookup_lr _ _ _ _ _ _ Hall Hpage Hlbl).
Qed.

Lemma labels_by_page labels :
  Forall2 (λ i lbl, get_real_page_num pdf i = Ok lbl) (seq 0 (length pdf)) labels →
  Forall2 (λ page lbl, page_label page = Ok lbl) pdf labels.
Proof.
  intros Hall. pose proof (Forall2_length _ _ _ Hall) as Hlen.
  rewrite length_seq in Hlen.
  apply Forall2_same_length_lookup_2; [done|].
  intros i page lbl Hpage Hlbl.
  rewrite <- (get_real_page_num_page _ _ _ Hpage).
  eapply (Forall2_lookup_lr _ _ _ i i lbl Hall); [|done].
  apply lookup_seq_lt. by apply lookup_lt_Some in Hpage.
Qed.

(** The rest of [organize_file] after the first loop has returned the table
    of all pages: the reordered pages are written to the output file, then
    the reduction is formatted and the completion message is logged. *)
Lemma organize_file_after_loop directory output labels w w1 :
  files w !! path_join directory file_name = Some pdf →
  Forall2 (λ page lbl, page_label page = Ok lbl) pdf labels →
  collect_pages logger pdf line file_name (length pdf) (seq 0 (length pdf)) 0
    OrderedDict.empty w = (Ok (page_table (zip labels (seq 0 (length pdf)))), w1) →
  organize_file format_reduction logger (line, file_name, directory, output) w =
  let out_pdf := reorder (zip labels pdf) in
  let w2 := {| stdout := stdout w1;
               files := <[path_join output file_name := out_pdf]> (files w1) |} in
  if bool_decide (pdf = []) then (Raise ZeroDivisionError, w2)
  else Logger.log logger line
         (completion_text format_reduction file_name (length pdf) (length out_pdf)) w2.
Proof.
  intros Hfile Hall Hcollect.
  pose proof (Forall2_length _ _ _ Hall) as Hlen.
  unfold organize_file.
  erewrite bind_ok by (unfold open_pdf; rewrite Hfile; reflexivity).
  erewrite bind_ok by exact Hcollect.
  erewrite bind_ok; cycle 1.
  { unfold lift, OrderedDict.items. rewrite add_pages_ok; [reflexivity|].
    apply Forall_forall. intros [k i] Hin. simpl.
    apply page_table_subseteq, elem_of_zip_r, elem_of_seq in Hin. lia. }
  rewrite app_nil_l.
  assert (page_at pdf <$> (page_table (zip labels (seq 0 (length pdf)))).*2
          = reorder (zip labels pdf)) as ->.
  { change ((page_table (zip labels (seq 0 (length pdf)))).*2)
      with (reorder (zip labels (seq 0 (length pdf)))).
    rewrite <- reorder_fmap, prod_map_zip, list_fmap_id. by rewrite page_at_seq. }
  erewrite bind_ok by reflexivity.
  cbv zeta.
  rewrite (bool_decide_ext (pdf = []) (length pdf = 0%nat))
    by (symmetry; apply length_zero_iff_nil).
  case_bool_decide as Hnil.
  - by erewrite bind_raise by reflexivity.
  - by erewrite bind_ok by reflexivity.
Qed.

(** A document with pages, all of which yield a label, and messages that can
    be printed: the output file holds the reordered pages and the call
    returns. *)
Lemma organize_file_ok directory output labels w :
  files w !! path_join directory file_name = Some pdf →
  pdf ≠ [] →
  Forall2 (λ page lbl, page_label page = Ok lbl) pdf labels →
  encodable file_name = true →
  encodable (format_reduction (length pdf) (length (reorder (zip labels pdf)))) = true →
  ∃ out,
    organize_file format_reduction logger (line, file_name, directory, output) w =
    (Ok (), {| stdout := stdout w ++ out;
               files := <[path_join output file_name := reorder (zip labels pdf)]>
                          (files w) |}).
Proof.
  intros Hfile Hpages Hall Hname Hfmt.
  destruct (collect_pages_ok (length pdf) _ _ 0%nat OrderedDict.empty w Hname
              (labels_by_number _ Hall)) as [out1 Hcollect].
  rewrite (organize_file_after_loop directory output labels w _ Hfile Hall Hcollect).
  cbv zeta. rewrite bool_decide_false by done.
  rewrite log_eq; cycle 1.
  { unfold completion_text.
    rewrite encodable_cons, !encodable_app, encodable_cons, !encodable_app,
      !encodable_str_of_int, Hname, Hfmt. reflexivity. }
  cbn [stdout files]. rewrite <- app_assoc. eauto.
Qed.

(** What a normal return of [organize_file] tells: the source file is
    there and has pages, every page has yielded a label, and the output
    file holds the reordered pages; no other file has changed. *)
Lemma organize_file_ok_inv directory output w w' :
  organize_file format_reduction logger (line, file_name, directory, output) w
    = (Ok (), w') →
  files w !! path_join directory file_name = Some pdf →
  ∃ labels,
    pdf ≠ [] ∧
    Forall2 (λ page label, page_label page = Ok label) pdf labels ∧
    files w' = <[path_join output file_name := reorder (zip labels pdf)]> (files w).
Proof.
  intros Hrun Hfile.
  pose proof (collect_pages_files (length pdf) (seq 0 (length pdf)) 0%nat
                OrderedDict.empty w) as Hfiles.
  destruct (collect_pages logger pdf line file_name (length pdf) (seq 0 (length pdf))
              0%nat OrderedDict.empty w) as [[pages|e] w1] eqn:Hcollect.
  - destruct (collect_pages_inv _ _ _ _ _ _ _ Hcollect) as (labels & Hall & ->).
    apply labels_by_page in Hall. exists labels.
    rewrite (organize_file_after_loop directory output labels w w1 Hfile Hall Hcollect)
      in Hrun.
    cbv zeta in Hrun. case_bool_decide as Hnil; [done|].
    split_and!; [done|done|].
    pose proof (log_files logger line
                  (completion_text format_reduction file_name (length pdf)
                     (length (reorder (zip labels pdf))))
                  {| stdout := stdout w1;
                     files := <[path_join output file_name :=
                                  reorder (zip labels pdf)]> (files w1) |}) as Hlog.
    rewrite Hrun in Hlog. cbn [snd files] in *. by rewrite Hlog, Hfiles.
  - unfold organize_file in Hrun.
    erewrite bind_ok in Hrun by (unfold open_pdf; rewrite Hfile; reflexivity).
    by erewrite bind_raise in Hrun by exact Hcollect.
Qed.

(** Without a source file the call raises at once. *)
Lemma organize_file_missing directory output w :
  files w !! path_join directory file_name = None →
  organize_file format_reduction logger (line, file_name, directory, output) w =
  (Raise FileNotFoundError, w).
Proof.
  intros Hfile. unfold organize_file.
  erewrite bind_raise; [done|]. unfold open_pdf. by rewrite Hfile.
Qed.

(** A document without pages: the empty output file is written, then the
    reduction divides by zero. *)
Lemma organize_file_no_pages directory output w :
  files w !! path_join directory file_name = Some [] →
  organize_file format_reduction logger (line, file_name, directory, output) w =
  (Raise ZeroDivisionError,
   {| stdout := stdout w;
      files := <[path_join output file_name := []]> (files w) |}).
Proof.
  intros Hfile. unfold organize_file.
  erewrite bind_ok by (unfold open_pdf; rewrite Hfile; reflexivity).
  reflexivity.
Qed.


(** Whatever [organize_file] returns, the files are as before, or as before
    but for the output file. *)
Lemma organize_file_files directory output w :
  let w' := (organize_file format_reduction logger
               (line, file_name, directory, output) w).2 in
  files w !! path_join directory file_name = Some pdf →
  files w' = files w ∨
  ∃ writer, files w' = <[path_join output file_name := writer]> (files w).
Proof.
  intros w' Hfile. subst w'.
  pose proof (collect_pages_files (length pdf) (seq 0 (length pdf)) 0%nat
                OrderedDict.empty w) as Hfiles.
  destruct (collect_pages logger pdf line file_name (length pdf) (seq 0 (length pdf))
              0%nat OrderedDict.empty w) as [[pages|e] w1] eqn:Hcollect.
  - destruct (collect_pages_inv _ _ _ _ _ _ _ Hcollect) as (labels & Hall & ->).
    apply labels_by_page in Hall.
    rewrite (organize_file_after_loop directory output labels w w1 Hfile Hall Hcollect).
    cbv zeta. right. exists (reorder (zip labels pdf)).
    case_bool_decide; [|rewrite log_files]; cbn [snd files] in *; by rewrite Hfiles.
  - left. unfold organize_file.
    erewrite bind_ok by (unfold open_pdf; rewrite Hfile; reflexivity).
    by erewrite bind_raise by exact Hcollect.
Qed.
End organize_facts.

(** ** Last occurrences *)

Lemma split_last_label {K V : Type} `{EqDecision K} (pairs : list (K * V)) k :
  k ∈ pairs.*1 →
  ∃ l1 v l2, pairs = l1 ++ (k, v) :: l2 ∧ k ∉ l2.*1.
Proof.
  induction pairs as [|[k' v'] pairs IH] using rev_ind.
  - by intros ?%elem_of_nil.
  - rewrite fmap_app, elem_of_app. simpl. intros Hin.
    destruct (decide (k' = k)) as [->|Hne].
    + exists pairs, v', []. split; [done|]. apply not_elem_of_nil.
    + destruct Hin as [Hin|Hin%list_elem_of_singleton]; [|congruence].
      destruct (IH Hin) as (l1 & v & l2 & -> & Hl2).
      exists l1, v, (l2 ++ [(k', v')]). rewrite <- app_assoc. split; [done|].
      rewrite fmap_app, not_elem_of_app. split; [done|].
      simpl. rewrite list_elem_of_singleton. congruence.
Qed.

Lemma NoDup_fst_functional {K V : Type} (l : list (K * V)) k v v' :
  NoDup l.*1 → (k, v) ∈ l → (k, v') ∈ l → v = v'.
Proof.
  induction l as [|[k0 v0] l IH]; csimpl; [by intros _ ?%elem_of_nil|].
  intros [Hk0 Hnd]%NoDup_cons [Heq|Hin]%elem_of_cons [Heq'|Hin']%elem_of_cons.
  - congruence.
  - injection Heq as -> ->. destruct Hk0. by apply (list_elem_of_fmap_2 fst) in Hin'.
  - injection Heq' as -> ->. destruct Hk0. by apply (list_elem_of_fmap_2 fst) in Hin.
  - by apply IH.
Qed.

Lemma zip_labels_elem (pdf : PdfFileReader) (labels : list str) k page :
  Forall2 (λ page label, page_label page = Ok label) pdf labels →
  (k, page) ∈ zip labels pdf → page_label page = Ok k.
Proof.
  induction 1 as [|page' k' pdf labels Hhead _ IH]; simpl.
  - by intros ?%elem_of_nil.
  - intros [Heq|Hin]%elem_of_cons; [congruence|by apply IH].
Qed.

(** Every entry of the page table comes from the last occurrence of its
    label. *)
Lemma page_table_entry_split {K V : Type} `{Countable K}
    (pairs : list (K * V)) k v :
  (k, v) ∈ page_table pairs → ∃ l1 l2, pairs = l1 ++ (k, v) :: l2 ∧ k ∉ l2.*1.
Proof.
  intros Hin.
  assert (k ∈ pairs.*1) as Hk.
  { apply elem_of_first_seen. rewrite <- page_table_keys.
    by apply (list_elem_of_fmap_2 fst) in Hin. }
  destruct (split_last_label pairs k Hk) as (l1 & v' & l2 & -> & Hl2).
  pose proof (page_table_last l1 k v' l2 Hl2) as Hin'.
  pose proof (page_table_NoDup (l1 ++ (k, v') :: l2)) as Hnd.
  assert (v = v') as -> by (by eapply NoDup_fst_functional).
  by exists l1, l2.
Qed.

Lemma last_with_label_split {K V : Type} `{EqDecision K}
    (l1 l2 : list (K * V)) k v :
  k ∉ l2.*1 → last_with_label (l1 ++ (k, v) :: l2) k = Some v.
Proof.
  intros Hk. unfold last_with_label.
  rewrite filter_app, filter_cons_True by done.
  assert (filter (λ kv : K * V, kv.1 = k) l2 = []) as ->.
  { clear l1. induction l2 as [|[k' v'] l2 IH]; [done|]. csimpl in Hk.
    apply not_elem_of_cons in Hk as [Hne Hk].
    rewrite filter_cons_False by (simpl; congruence). by apply IH. }
  by rewrite last_snoc.
Qed.

(** The output holds, for each label in first-seen order, the page that
    comes last under that label. *)
Lemma reorder_last_pages {K V : Type} `{Countable K} (pairs : list (K * V)) :
  Forall2 (λ label page, last_with_label pairs label = Some page)
    (first_seen pairs.*1) (reorder pairs).
Proof.
  rewrite <- page_table_keys. unfold reorder, OrderedDict.items.
  apply Forall2_fmap, Forall_Forall2_diag, Forall_forall.
  intros [k v] (l1 & l2 & -> & Hk)%page_table_entry_split.
  by apply last_with_label_split.
Qed.

Lemma page_table_get_last {K V : Type} `{Countable K}
    (l1 l2 : list (K * V)) k v :
  k ∉ l2.*1 → OrderedDict.get (page_table (l1 ++ (k, v) :: l2)) k = Some v.
Proof.
  intros Hk. unfold page_table.
  rewrite fold_left_app. csimpl.
  rewrite fold_setitem_get.
  destruct (OrderedDict.get (fold_left _ l2 OrderedDict.empty) k) as [v'|] eqn:Hg.
  - apply get_Some_elem_of, (list_elem_of_fmap_2 fst) in Hg.
    fold (page_table l2) in Hg. rewrite page_table_keys, elem_of_first_seen in Hg.
    done.
  - rewrite setitem_get. by rewrite decide_True.
Qed.

(** The last place at which a label stands in a list of labels that is
    paired with a list of values. *)
Lemma zip_last_occurrence {K V : Type} `{EqDecision K}
    (ks : list K) (vs : list V) i k :
  length ks = length vs →
  ks !! i = Some k →
  ∃ l1 v l2,
    zip ks vs = l1 ++ (k, v) :: l2 ∧ (k ∉ l2.*1) ∧
    vs !! length l1 = Some v ∧ (i ≤ length l1)%nat ∧
    ∀ j k', (length l1 < j)%nat → ks !! j = Some k' → k' ≠ k.
Proof.
  intros Hlen Hi.
  assert (k ∈ (zip ks vs).*1) as Hk.
  { rewrite fst_zip by lia. by eapply list_elem_of_lookup_2. }
  destruct (split_last_label (zip ks vs) k Hk) as (l1 & v & l2 & Hzip & Hl2).
  exists l1, v, l2.
  assert (∀ j k', (length l1 < j)%nat → ks !! j = Some k' → k' ≠ k) as Hlater.
  { intros j k' Hj Hk' ->.
    destruct (lookup_lt_is_Some_2 vs j) as [v' Hv'].
    { rewrite <- Hlen. by eapply lookup_lt_Some. }
    assert (zip ks vs !! j = Some (k, v')) as Hz.
    { apply lookup_zip_with_Some. eauto. }
    rewrite Hzip, lookup_app_r in Hz by lia.
    destruct (j - length l1)%nat as [|m] eqn:Hm; [lia|]. simpl in Hz.
    apply Hl2. apply list_elem_of_lookup_2 in Hz.
    by apply (list_elem_of_fmap_2 fst) in Hz. }
  split_and!; [done|done| | |done].
  - assert (zip ks vs !! length l1 = Some (k, v)) as Hz
      by (rewrite Hzip; apply list_lookup_middle; done).
    apply lookup_zip_with_Some in Hz as (k' & v' & [= <- <-] & _ & Hv). done.
  - destruct (decide (i ≤ length l1)%nat) as [|Hgt]; [done|].
    destruct (Hlater i k); [lia|done|done].
Qed.

(** ** Order of the output *)

(** C3: for every input the output has one page for each label, in the
    order in which the labels are first seen and whatever their numeric
    value: the page that comes last under that label. For the labels "2/2"
    then "1/2" the output is the first page followed by the second. When
    [organize_file] returns, its output file holds the pages of the source
    document in that order. *)
Theorem C3_first_seen_order_without_sorting :
  (∀ (V : Type) (pairs : list (str * V)),
     (OrderedDict.items (page_table pairs)).*1 = first_seen pairs.*1 ∧
     Forall2 (λ label page, last_with_label pairs label = Some page)
       (first_seen pairs.*1) (reorder pairs)) ∧
  (∀ (V : Type) (p1 p2 : V),
     reorder [(py "2/2", p1); (py "1/2", p2)] = [p1; p2]) ∧
  (∀ (format_reduction : nat → nat → str) (logger : Logger.t) (line : Z)
     (file_name directory output : str) (w w' : world)
     (pdf : PdfFileReader) (labels : list str),
     files w !! path_join directory file_name = Some pdf →
     Forall2 (λ page label, page_label page = Ok label) pdf labels →
     organize_file format_reduction logger (line, file_name, directory, output) w
       = (Ok (), w') →
     files w' !! path_join output file_name = Some (reorder (zip labels pdf))).
Proof.
  split_and!.
  - intros V pairs. split; [apply page_table_keys|apply reorder_last_pages].
  - reflexivity.
  - intros format_reduction logger line file_name directory output w w' pdf labels
      Hfile Hlabels Hrun.
    destruct (organize_file_ok_inv _ _ _ _ _ _ _ _ _ Hrun Hfile)
      as (labels' & _ & Hlabels' & ->).
    rewrite lookup_insert_eq. do 3 f_equal.
    clear -Hlabels Hlabels'. revert labels' Hlabels'.
    induction Hlabels as [|page label pdf labels Hhead _ IH]; intros labels' Hlabels';
      inversion Hlabels'; subst; [done|].
    f_equal; [congruence|by apply IH].
Qed.

Lemma C3_first_seen_order_witness :
  let p1 := {| extractText := py "2/2"; body := 1 |} in
  let p2 := {| extractText := py "1/2"; body := 2 |} in
  let w := {| stdout := []; files := {[ py "in/scan.pdf" := [p1; p2] ]} |} in
  let w' := (organize_file (λ _ _, py "0.00") {| Logger.num := 1 |}
               (0, py "scan.pdf", py "in", py "out") w).2 in
  files w' !! path_join (py "out") (py "scan.pdf")
  = Some (reorder (zip [py "2"; py "1"] [p1; p2])).
Proof.
  intros p1 p2 w w'.
  apply (proj2 (proj2 C3_first_seen_order_without_sorting) (λ _ _, py "0.00")
           {| Logger.num := 1 |} 0 (py "scan.pdf") (py "in") (py "out") w w'
           [p1; p2] [py "2"; py "1"]).
  - reflexivity.
  - repeat constructor.
  - vm_compute. reflexivity.
Defined.

(** ** Label extraction *)

(** C4, as the code has it: the extractor takes the last of the lines of the
    page's text, which is empty when the text ends with an empty line, and
    returns the part of it before the first "/", or all of it when it has no
    "/". It fails, with IndexError, exactly when the text is empty. *)
Theorem C4_label_from_last_line (pdf : PdfFileReader) (i : nat) (page : Page) :
  pdf !! i = Some page →
  (get_real_page_num pdf i = Raise IndexError ↔ extractText page = []) ∧
  (∀ e, get_real_page_num pdf i = Raise e → e = IndexError) ∧
  (extractText page ≠ [] →
   ∃ lines last_line, splitlines (extractText page) = lines ++ [last_line]) ∧
  (∀ lines last_line,
     splitlines (extractText page) = lines ++ [last_line] →
     ∃ label, get_real_page_num pdf i = Ok label ∧
              before_first SLASH last_line label).
Proof.
  intros Hpage. rewrite (get_real_page_num_page _ _ _ Hpage). split_and!.
  - split; [by intros [_ ?]%page_label_raises | apply page_label_no_text].
  - by intros e [-> _]%page_label_raises.
  - intros Htext.
    destruct (splitlines (extractText page)) as [|l ls _] eqn:Hl using rev_ind.
    + by apply splitlines_nil in Hl.
    + by exists ls, l.
  - apply page_label_last_line.
Qed.

Lemma C4_label_from_last_line_witness :
  let page := {| extractText := py "Chapter 2" ++ [LF] ++ py "12/40"; body := 0 |} in
  (get_real_page_num [page] 0 = Raise IndexError ↔ extractText page = []) ∧
  (∀ e, get_real_page_num [page] 0 = Raise e → e = IndexError) ∧
  (extractText page ≠ [] →
   ∃ lines last_line, splitlines (extractText page) = lines ++ [last_line]) ∧
  (∀ lines last_line,
     splitlines (extractText page) = lines ++ [last_line] →
     ∃ label, get_real_page_num [page] 0 = Ok label ∧
              before_first SLASH last_line label).
Proof.
  intros page. apply (C4_label_from_last_line [page] 0 page). reflexivity.
Defined.

(** C4 as stated fails: a page whose only line has no "/" is not an error,
    its label is the whole line; and the last line is taken even when it is
    empty, where the last non-empty line would give another label. *)
Lemma C4_counterexample_no_delimiter_is_no_error :
  let page := {| extractText := py "abc"; body := 0 |} in
  let page' := {| extractText := py "1/3" ++ [LF; LF]; body := 0 |} in
  (splitlines (extractText page) = [py "abc"] ∧
   (SLASH ∉ py "abc") ∧
   get_real_page_num [page] 0 = Ok (py "abc") ∧
   ¬ ∃ e, get_real_page_num [page] 0 = Raise e) ∧
  (splitlines (extractText page') = [py "1/3"; []] ∧
   get_real_page_num [page'] 0 = Ok [] ∧
   get_real_page_num [page'] 0 ≠ Ok (py "1")).
Proof.
  split; split_and!; try reflexivity.
  - vm_compute. intros Hin. repeat (apply elem_of_cons in Hin as [Hin|Hin]; [done|]).
    by apply elem_of_nil in Hin.
  - intros [e He]. vm_compute in He. discriminate.
  - vm_compute. discriminate.
Qed.

(** C10: a page with text whose last line has no "/" raises nothing, and its
    label is the whole last line. Such a page is entered into the page table
    under that line: when the first loop returns, the table holds under the
    key [last_line] the number of a page at or after this one whose label
    is [last_line]; and when [organize_file] returns, its output file holds
    exactly one page labelled [last_line], the last page of the source
    document with that label. *)
Theorem C10_no_slash_label_is_whole_last_line
    (pdf : PdfFileReader) (i : nat) (page : Page) (lines : list str) (last_line : str) :
  pdf !! i = Some page →
  splitlines (extractText page) = lines ++ [last_line] →
  SLASH ∉ last_line →
  get_real_page_num pdf i = Ok last_line ∧
  (∀ (logger : Logger.t) (line : Z) (file_name : str) (w w1 : world)
     (pages : OrderedDict.t str nat),
     collect_pages logger pdf line file_name (length pdf) (seq 0 (length pdf)) 0
       OrderedDict.empty w = (Ok pages, w1) →
     ∃ (j : nat) (kept : Page),
       OrderedDict.get pages last_line = Some j ∧
       (i ≤ j)%nat ∧ pdf !! j = Some kept ∧ page_label kept = Ok last_line) ∧
  (∀ (format_reduction : nat → nat → str) (logger : Logger.t) (line : Z)
     (file_name directory output : str) (w w' : world),
     files w !! path_join directory file_name = Some pdf →
     organize_file format_reduction logger (line, file_name, directory, output) w
       = (Ok (), w') →
     ∃ (before after : list Page) (j : nat) (kept : Page),
       files w' !! path_join output file_name = Some (before ++ kept :: after) ∧
       page_label kept = Ok last_line ∧
       (∀ other, other ∈ before ++ after → page_label other ≠ Ok last_line) ∧
       (i ≤ j)%nat ∧ pdf !! j = Some kept ∧
       (∀ j' later, (j < j')%nat → pdf !! j' = Some later →
                    page_label later ≠ Ok last_line)).
Proof.
  intros Hpage Hlines Hslash.
  assert (page_label page = Ok last_line) as Hlabel.
  { destruct (page_label_last_line _ _ _ Hlines) as (r & -> & Hr).
    by rewrite (before_first_absent _ _ _ Hslash Hr). }
  split_and!.
  - by rewrite (get_real_page_num_page _ _ _ Hpage).
  - intros logger line file_name w w1 pages Hcollect.
    destruct (collect_pages_inv _ _ _ _ _ _ _ _ _ _ _ Hcollect) as (labels & Hall & ->).
    apply labels_by_page in Hall.
    pose proof (Forall2_length _ _ _ Hall) as Hlen.
    destruct (Forall2_lookup_l _ _ _ _ _ Hall Hpage) as (label & Hi & Hlabel').
    assert (label = last_line) as -> by congruence.
    destruct (zip_last_occurrence labels (seq 0 (length pdf)) i last_line)
      as (l1 & j & l2 & Hzip & Hl2 & Hj & Hij & _);
      [by rewrite length_seq|done|].
    apply lookup_seq in Hj as [Hj Hlt]. simpl in Hj. subst j.
    destruct (lookup_lt_is_Some_2 pdf (length l1) Hlt) as [kept Hkept].
    exists (length l1), kept. split_and!; [|done|done|].
    + fold (page_table (zip labels (seq 0 (length pdf)))). rewrite Hzip.
      by apply page_table_get_last.
    + assert (zip labels (seq 0 (length pdf)) !! length l1
              = Some (last_line, length l1)) as Hz
        by (rewrite Hzip; apply list_lookup_middle; done).
      apply lookup_zip_with_Some in Hz as (k' & v' & [= <- <-] & Hk' & _).
      by apply (Forall2_lookup_lr _ _ _ _ _ _ Hall Hkept Hk').
  - intros format_reduction logger line file_name directory output w w' Hfile Hrun.
    destruct (organize_file_ok_inv _ _ _ _ _ _ _ _ _ Hrun Hfile)
      as (labels & _ & Hall & ->).
    pose proof (Forall2_length _ _ _ Hall) as Hlen.
    destruct (Forall2_lookup_l _ _ _ _ _ Hall Hpage) as (label & Hi & Hlabel').
    assert (label = last_line) as -> by congruence.
    destruct (zip_last_occurrence labels pdf i last_line)
      as (l1 & kept & l2 & Hzip & Hl2 & Hkept & Hij & Hlater); [done|done|].
    pose proof (page_table_last l1 last_line kept l2 Hl2) as Hin.
    rewrite <- Hzip in Hin.
    pose proof (page_table_NoDup (zip labels pdf)) as Hnd.
    assert (∀ k p, (k, p) ∈ page_table (zip labels pdf) → page_label p = Ok k)
      as Hentries.
    { intros k p Hkp%page_table_subseteq. by eapply zip_labels_elem. }
    apply list_elem_of_split in Hin as (d1 & d2 & Hd).
    exists d1.*2, d2.*2, (length l1), kept.
    split_and!; [| | |done|done|].
    + rewrite lookup_insert_eq. unfold reorder, OrderedDict.items.
      by rewrite Hd, fmap_app.
    + eapply Hentries. rewrite Hd. apply elem_of_app. right. left.
    + rewrite Hd, fmap_app in Hnd. csimpl in Hnd.
      apply NoDup_app in Hnd as (_ & Hd1 & [Hd2 _]%NoDup_cons).
      intros other Hother.
      assert (∃ k, (k, other) ∈ page_table (zip labels pdf) ∧ k ≠ last_line)
        as (k & Hk & Hne).
      { rewrite Hd.
        apply elem_of_app in Hother as [Hother|Hother];
          apply list_elem_of_fmap in Hother as ([k p] & -> & Hkp); exists k; simpl.
        - split; [apply elem_of_app; by left|]. intros ->.
          apply (Hd1 last_line); [by apply (list_elem_of_fmap_2 fst) in Hkp|left].
        - split; [apply elem_of_app; right; by right|]. intros ->.
          apply Hd2. by apply (list_elem_of_fmap_2 fst) in Hkp. }
      rewrite (Hentries _ _ Hk). congruence.
    + intros j' later Hj' Hlater'.
      destruct (Forall2_lookup_l _ _ _ _ _ Hall Hlater') as (k' & Hk' & ->).
      intros [= ->]. by apply (Hlater j' last_line).
Qed.

Lemma C10_no_slash_witness :
  let page := {| extractText := py "Appendix" ++ [LF] ++ py "xii"; body := 7 |} in
  let pdf := [page; page] in
  let w := {| stdout := []; files := {[ py "in/scan.pdf" := pdf ]} |} in
  let loop := collect_pages {| Logger.num := 1 |} pdf 0 (py "scan.pdf") (length pdf)
                (seq 0 (length pdf)) 0 OrderedDict.empty w in
  let w' := (organize_file (λ _ _, py "50.00") {| Logger.num := 1 |}
               (0, py "scan.pdf", py "in", py "out") w).2 in
  get_real_page_num pdf 0 = Ok (py "xii") ∧
  (∃ (pages : OrderedDict.t str nat) (j : nat) (kept : Page),
     loop.1 = Ok pages ∧
     OrderedDict.get pages (py "xii") = Some j ∧
     (0 ≤ j)%nat ∧ pdf !! j = Some kept ∧ page_label kept = Ok (py "xii")) ∧
  (∃ (before after : list Page) (j : nat) (kept : Page),
     files w' !! path_join (py "out") (py "scan.pdf")
       = Some (before ++ kept :: after) ∧
     page_label kept = Ok (py "xii") ∧
     (∀ other, other ∈ before ++ after → page_label other ≠ Ok (py "xii")) ∧
     (0 ≤ j)%nat ∧ pdf !! j = Some kept ∧
     (∀ j' later, (j < j')%nat → pdf !! j' = Some later →
                  page_label later ≠ Ok (py "xii"))).
Proof.
  intros page pdf w loop w'.
  destruct (C10_no_slash_label_is_whole_last_line pdf 0 page [py "Appendix"]
              (py "xii")) as (Hlabel & Hloop & Hrun).
  - reflexivity.
  - reflexivity.
  - vm_compute. intros Hin. repeat (apply elem_of_cons in Hin as [Hin|Hin]; [done|]).
    by apply elem_of_nil in Hin.
  - split_and!.
    + exact Hlabel.
    + destruct (Hloop {| Logger.num := 1 |} 0 (py "scan.pdf") w loop.2
                  (OrderedDict.setitem OrderedDict.empty (py "xii") 1%nat))
        as (j & kept & Hj); [vm_compute; reflexivity|].
      exists (OrderedDict.setitem OrderedDict.empty (py "xii") 1%nat), j, kept.
      split; [vm_compute; reflexivity|exact Hj].
    + apply (Hrun (λ _ _, py "50.00") {| Logger.num := 1 |} 0 (py "scan.pdf")
               (py "in") (py "out") w w'); [reflexivity|vm_compute; reflexivity].
Defined.

(** ** Documents without pages, pages without text *)

(** C5 fails on the code: for a source document of zero pages
    [organize_file] writes an output document of zero pages and then raises
    ZeroDivisionError while it formats the reduction. *)
Theorem C5_zero_pages_raise_after_writing
    (format_reduction : nat → nat → str) (logger : Logger.t)
    (line : Z) (file_name directory output : str) (w : world) :
  files w !! path_join directory file_name = Some [] →
  organize_file format_reduction logger (line, file_name, directory, output) w =
  (Raise ZeroDivisionError,
   {| stdout := stdout w;
      files := <[path_join output file_name := []]> (files w) |}).
Proof. apply organize_file_no_pages. Qed.

Lemma C5_zero_pages_witness :
  let w := {| stdout := []; files := {[ py "in/empty.pdf" := [] ]} |} in
  organize_file (λ _ _, py "0.00") {| Logger.num := 1 |}
    (0, py "empty.pdf", py "in", py "out") w =
  (Raise ZeroDivisionError,
   {| stdout := stdout w;
      files := <[path_join (py "out") (py "empty.pdf") := []]> (files w) |}).
Proof.
  intros w.
  apply (C5_zero_pages_raise_after_writing (λ _ _, py "0.00") {| Logger.num := 1 |}
           0 (py "empty.pdf") (py "in") (py "out") w).
  reflexivity.
Defined.




(** ** A directory without PDF files *)

(** C7 fails on the code: with no eligible file the logger of zero lines is
    made, which only hides the cursor, and then the pool of zero processes is
    refused with ValueError; no worker runs and the program does not return
    normally. *)
Theorem C7_no_files_pool_raises
    (format_reduction : nat → nat → str)
    (pool_map : Z → (Z * str * str * str → M ()) → list (Z * str * str * str) → M ())
    (directory output : str) (listing : list str) (w : world) :
  filter (λ f, endswith f (py ".pdf")) listing = [] →
  main format_reduction pool_map directory output listing w =
  (Raise ValueError,
   {| stdout := stdout w ++ ESC :: py "[?25l"; files := files w |}).
Proof.
  intros Hnone. unfold main. rewrite Hnone.
  erewrite bind_ok by apply init_eq.
  by erewrite bind_raise by reflexivity.
Qed.

Lemma C7_no_files_witness :
  main (λ _ _, py "0.00") (λ _ _ _, mret ()) (py "in") (py "out")
    [py "notes.txt"; py "scan.pdf.bak"] {| stdout := []; files := ∅ |} =
  (Raise ValueError,
   {| stdout := [] ++ ESC :: py "[?25l"; files := ∅ |}).
Proof.
  apply (C7_no_files_pool_raises (λ _ _, py "0.00") (λ _ _ _, mret ()) (py "in")
           (py "out") [py "notes.txt"; py "scan.pdf.bak"]
           {| stdout := []; files := ∅ |}).
  reflexivity.
Defined.

(** ** The terminal *)

Section terminal_facts.
Context (width : nat).
Implicit Types (t : Terminal.tty) (s ds ps msg : str).

Lemma run_app t s1 s2 :
  Terminal.run width t (s1 ++ s2) = Terminal.run width (Terminal.run width t s1) s2.
Proof. apply fold_left_app. Qed.

Lemma set_state_ground t :
  Terminal.state t = Terminal.Ground → Terminal.set_state Terminal.Ground t = t.
Proof. destruct t. simpl. by intros ->. Qed.

Lemma run_nil t : Terminal.run width t [] = t.
Proof. reflexivity. Qed.

Lemma run_cons t c s :
  Terminal.run width t (c :: s) = Terminal.run width (Terminal.feed width t c) s.
Proof. reflexivity. Qed.

Lemma feed_param ps c t :
  Terminal.state t = Terminal.Csi ps →
  (48 ≤ c ≤ 63)%N →
  Terminal.feed width t c = Terminal.set_state (Terminal.Csi (ps ++ [c])) t.
Proof.
  intros Hstate Hc. unfold Terminal.feed. rewrite Hstate.
  destruct (N.leb_spec 48 c); [|lia]. destruct (N.leb_spec c 63); [|lia]. done.
Qed.

Lemma feed_final ps c t :
  Terminal.state t = Terminal.Csi ps →
  (64 ≤ c ≤ 126)%N →
  Terminal.feed width t c =
  Terminal.dispatch width ps c (Terminal.set_state Terminal.Ground t).
Proof.
  intros Hstate Hc. unfold Terminal.feed. rewrite Hstate.
  destruct (N.leb_spec 48 c); [|lia]. destruct (N.leb_spec c 63); [lia|].
  destruct (N.leb_spec 64 c); [|lia]. destruct (N.leb_spec c 126); [|lia]. done.
Qed.

Lemma run_params ds ps final t rest :
  Forall (λ c, 48 ≤ c ≤ 63)%N ds →
  (64 ≤ final ≤ 126)%N →
  Terminal.state t = Terminal.Csi ps →
  Terminal.run width t (ds ++ final :: rest) =
  Terminal.run width
    (Terminal.dispatch width (ps ++ ds) final (Terminal.set_state Terminal.Ground t)) rest.
Proof.
  intros Hds Hfinal. revert ps t.
  induction Hds as [|c ds Hc _ IH]; intros ps t Hstate.
  - rewrite app_nil_l, run_cons, (feed_final ps), app_nil_r by done. done.
  - rewrite <- app_comm_cons, run_cons, (feed_param ps) by done.
    rewrite (IH (ps ++ [c])) by done. by rewrite <- app_assoc.
Qed.

Lemma run_csi ds final t rest :
  Terminal.state t = Terminal.Ground →
  Forall (λ c, 48 ≤ c ≤ 63)%N ds →
  (64 ≤ final ≤ 126)%N →
  Terminal.run width t (ESC :: 91%N :: ds ++ final :: rest) =
  Terminal.run width (Terminal.dispatch width ds final t) rest.
Proof.
  intros Hstate Hds Hfinal. rewrite !run_cons.
  assert (Terminal.feed width (Terminal.feed width t ESC) 91%N
          = Terminal.set_state (Terminal.Csi []) t) as ->.
  { unfold Terminal.feed at 2. rewrite Hstate. reflexivity. }
  rewrite (run_params ds [] final) by done.
  change (Terminal.set_state Terminal.Ground (Terminal.set_state (Terminal.Csi []) t))
    with (Terminal.set_state Terminal.Ground t).
  by rewrite (set_state_ground t Hstate).
Qed.

Lemma set_cell_end pre c : Terminal.set_cell pre (length pre) c = pre ++ [c].
Proof.
  unfold Terminal.set_cell.
  rewrite Nat.sub_diag, app_nil_r, firstn_all, drop_ge by lia. done.
Qed.

Lemma feed_printable t c :
  Terminal.state t = Terminal.Ground →
  Terminal.is_control c = false →
  Terminal.feed width t c = Terminal.put width c t.
Proof.
  intros Hstate Hctl. unfold Terminal.feed. rewrite Hstate, Hctl.
  pose proof Hctl as Hc. unfold Terminal.is_control in Hc.
  apply orb_false_iff in Hc as [[Hc _]%orb_false_iff _].
  apply N.ltb_ge in Hc. unfold ESC, LF, CR.
  destruct (N.eqb_spec c 27); [lia|]. destruct (N.eqb_spec c 10); [lia|].
  destruct (N.eqb_spec c 13); [lia|]. done.
Qed.

Lemma insert_after_alter {A} (f : A → A) (l : list A) i x :
  <[i := x]> (alter f i l) = <[i := x]> l.
Proof.
  apply list_eq. intros j. destruct (decide (i = j)) as [->|Hne].
  - destruct (decide (j < length l)%nat) as [Hj|Hj].
    + rewrite !list_lookup_insert_eq by (by rewrite ?length_alter). done.
    + rewrite !lookup_ge_None_2 by (rewrite ?length_insert, ?length_alter; lia). done.
  - rewrite !list_lookup_insert_ne, list_lookup_alter_ne by done. done.
Qed.

Lemma dispatch_cells ps c t :
  Terminal.cells (Terminal.dispatch width ps c t) = Terminal.cells t.
Proof.
  unfold Terminal.dispatch.
  destruct (Terminal.count_param ps), (Terminal.number_from 0 ps); simpl;
    repeat (case_match || case_bool_decide); reflexivity.
Qed.

Lemma feed_cells t c : Terminal.cells (Terminal.feed width t c) = Terminal.cells t.
Proof.
  unfold Terminal.feed, Terminal.put, Terminal.line_feed.
  repeat (case_match || case_bool_decide); rewrite ?dispatch_cells; reflexivity.
Qed.

(** The cells that the characters take are those of the terminal, whatever
    it has read. *)
Lemma run_cells t s : Terminal.cells (Terminal.run width t s) = Terminal.cells t.
Proof.
  revert t. induction s as [|c s IH]; intros t; [done|].
  by rewrite run_cons, IH, feed_cells.
Qed.

Lemma run_print_cells (cells : char → nat) msg :
  Forall (λ c, Terminal.is_control c = false ∧ cells c = 1%nat) msg →
  ∀ t pre,
    Terminal.cells t = cells →
    Terminal.state t = Terminal.Ground →
    Terminal.rows t !! Terminal.row t = Some pre →
    Terminal.col t = length pre →
    (length pre + length msg ≤ width)%nat →
    Terminal.run width t msg =
    {| Terminal.rows := <[Terminal.row t := pre ++ msg]> (Terminal.rows t);
       Terminal.row := Terminal.row t;
       Terminal.col := (length pre + length msg)%nat;
       Terminal.cursor_visible := Terminal.cursor_visible t;
       Terminal.state := Terminal.Ground;
       Terminal.cells := cells |}.
Proof.
  induction 1 as [|c msg [Hc Hone] _ IH]; intros t pre Hcells Hstate Hrow Hcol Hwidth.
  - rewrite app_nil_r, list_insert_id, Nat.add_0_r by done.
    destruct t. simpl in *. by subst.
  - rewrite run_cons, feed_printable by done.
    simpl in Hwidth. unfold Terminal.put.
    rewrite bool_decide_true by (by rewrite Hcells).
    rewrite bool_decide_false by lia.
    erewrite IH; cycle 1.
    + done.
    + done.
    + cbn [Terminal.rows Terminal.row].
      rewrite list_lookup_alter_eq, Hrow, Hcol. simpl.
      by rewrite set_cell_end.
    + cbn [Terminal.col]. rewrite Hcol, length_app. simpl. lia.
    + rewrite length_app. simpl. lia.
    + cbn [Terminal.rows Terminal.row Terminal.col Terminal.cursor_visible].
      rewrite insert_after_alter, <- app_assoc, length_app. simpl.
      f_equal. lia.
Qed.

(** Printing text of characters of one cell, without control characters, at
    the end of the cursor's row and within the width of the screen appends
    it to that row. *)
Lemma run_print msg t pre :
  Terminal.state t = Terminal.Ground →
  Forall (λ c, Terminal.is_control c = false ∧ Terminal.cells t c = 1%nat) msg →
  Terminal.rows t !! Terminal.row t = Some pre →
  Terminal.col t = length pre →
  (length pre + length msg ≤ width)%nat →
  Terminal.run width t msg =
  {| Terminal.rows := <[Terminal.row t := pre ++ msg]> (Terminal.rows t);
     Terminal.row := Terminal.row t;
     Terminal.col := (length pre + length msg)%nat;
     Terminal.cursor_visible := Terminal.cursor_visible t;
     Terminal.state := Terminal.Ground;
     Terminal.cells := Terminal.cells t |}.
Proof. intros Hstate Hmsg. by apply run_print_cells. Qed.

(** One call of [log] on a reserved block. *)
Lemma run_log_text t num line msg :
  0 ≤ line < num →
  reserved t num →
  Forall (λ c, Terminal.is_control c = false ∧ Terminal.cells t c = 1%nat) msg →
  (length msg ≤ width)%nat →
  Terminal.run width t (log_text num line msg) =
  {| Terminal.rows := <[block_row t num line := msg]> (Terminal.rows t);
     Terminal.row := Terminal.row t;
     Terminal.col := 0;
     Terminal.cursor_visible := Terminal.cursor_visible t;
     Terminal.state := Terminal.Ground;
     Terminal.cells := Terminal.cells t |}.
Proof.
  intros Hline (Hstate & Hcol & Hnum & Hrow) Hmsg Hwidth.
  destruct (str_of_int_count (num - line)) as [Hds Hcount]; [lia|].
  apply (Forall_impl _ (λ c, 48 ≤ c ≤ 63)%N) in Hds; [|intros c; simpl; lia].
  unfold log_text.
  change (py "[") with [91%N]. change (py "F") with [70%N].
  change (py "E") with [69%N]. change (py "[2K") with [91%N; 50%N; 75%N].
  set (n := Z.to_nat (num - line)) in *.
  assert (block_row t num line = Terminal.row t - n)%nat as Hblock
    by (unfold block_row; lia).
  rewrite !run_app.
  (* up to the line *)
  change (ESC :: [91%N] ++ str_of_int (num - line) ++ [70%N])
    with (ESC :: 91%N :: str_of_int (num - line) ++ [70%N]).
  rewrite run_csi, run_nil by (done || lia).
  assert (Terminal.dispatch width (str_of_int (num - line)) 70 t
          = Terminal.cursor_prev_line n t) as ->.
  { unfold Terminal.dispatch. rewrite Hcount. reflexivity. }
  (* erase it *)
  change [ESC; 91%N; 50%N; 75%N] with (ESC :: 91%N :: [50%N] ++ [75%N]).
  rewrite run_csi, run_nil; [|done|repeat constructor; lia|lia].
  change (Terminal.dispatch width [50%N] 75 (Terminal.cursor_prev_line n t))
    with (Terminal.erase_in_line width 2 (Terminal.cursor_prev_line n t)).
  (* print the message *)
  rewrite (run_print msg _ []); [|done|done| |done|simpl; lia].
  2:{ cbn [Terminal.erase_in_line Terminal.cursor_prev_line Terminal.rows Terminal.row].
      rewrite list_lookup_alter_eq.
      destruct (lookup_lt_is_Some_2 (Terminal.rows t) (Terminal.row t - n)%nat)
        as [old ->]; [lia|]. reflexivity. }
  (* and back *)
  change (ESC :: [91%N] ++ str_of_int (num - line) ++ [69%N])
    with (ESC :: 91%N :: str_of_int (num - line) ++ [69%N]).
  rewrite run_csi, run_nil; [|done|done|lia].
  unfold Terminal.dispatch. rewrite Hcount.
  cbn. unfold Terminal.cursor_next_line.
  cbn [Terminal.rows Terminal.row Terminal.col Terminal.cursor_visible Terminal.state].
  rewrite insert_after_alter, length_insert, Hblock.
  f_equal. lia.
Qed.

End terminal_facts.

(** ** Logger.log on the screen *)

(** C9, as the code has it: let the terminal have read everything printed so
    far and hold the reserved block of [num] rows just above the cursor, which
    is at the start of its row. For a line index in [0, num) and a message
    that standard output can encode, that has no control characters, whose
    characters each take one cell of the terminal and that is not longer than
    the screen is wide, [log] returns, makes that line of the block read the
    message, leaves every other row as it was and puts the cursor back where
    it was. *)
Theorem C9_log_rewrites_one_line
    (width : nat) (t0 : Terminal.tty) (self : Logger.t) (line : Z) (msg : str)
    (w : world) :
  let t := Terminal.run width t0 (stdout w) in
  let t' := Terminal.run width t0 (stdout (Logger.log self line msg w).2) in
  0 ≤ line < Logger.num self →
  reserved t (Logger.num self) →
  encodable msg = true →
  Forall (λ c, Terminal.is_control c = false ∧ Terminal.cells t c = 1%nat) msg →
  (length msg ≤ width)%nat →
  (Logger.log self line msg w).1 = Ok () ∧
  rewrites_only_line t t' (Logger.num self) line msg ∧
  Terminal.cursor_visible t' = Terminal.cursor_visible t ∧
  Terminal.state t' = Terminal.Ground.
Proof.
  intros t t' Hline Hres Hencodable Hmsg Hwidth. subst t'.
  rewrite log_eq by done. cbn [fst snd stdout]. rewrite run_app. fold t.
  rewrite (run_log_text width t _ _ _ Hline Hres Hmsg Hwidth).
  destruct Hres as (_ & Hcol & _). unfold rewrites_only_line. by rewrite Hcol.
Qed.

Lemma C9_log_rewrites_one_line_witness :
  let self := {| Logger.num := 3 |} in
  let w := (Logger.__init__ 3 {| stdout := []; files := ∅ |}).2 in
  let t := Terminal.run 80 (Terminal.blank 24) (stdout w) in
  let t' := Terminal.run 80 (Terminal.blank 24)
              (stdout (Logger.log self 1 (py "scan.pdf: 1/2") w).2) in
  (Logger.log self 1 (py "scan.pdf: 1/2") w).1 = Ok () ∧
  rewrites_only_line t t' 3 1 (py "scan.pdf: 1/2") ∧
  Terminal.cursor_visible t' = Terminal.cursor_visible t ∧
  Terminal.state t' = Terminal.Ground.
Proof.
  intros self w.
  apply (C9_log_rewrites_one_line 80 (Terminal.blank 24) self 1 (py "scan.pdf: 1/2") w).
  - simpl. lia.
  - vm_compute. repeat split; try discriminate; lia.
  - reflexivity.
  - vm_compute. repeat constructor.
  - vm_compute. lia.
Defined.

(** C9 as stated fails for a message with a line feed: after
    [log(0, "a\nb")] on a block of two lines the second line of the block has
    changed as well and the cursor is one row lower than before. *)
Lemma C9_counterexample_message_with_line_feed :
  let self := {| Logger.num := 2 |} in
  let msg := py "a" ++ [LF] ++ py "b" in
  let w := (Logger.__init__ 2 {| stdout := []; files := ∅ |}).2 in
  let w' := (Logger.log self 1 (py "second") w).2 in
  let t := Terminal.run 80 (Terminal.blank 24) (stdout w') in
  let t' := Terminal.run 80 (Terminal.blank 24)
              (stdout (Logger.log self 0 msg w').2) in
  reserved t 2 ∧
  Terminal.rows t !! 1%nat = Some (py "second") ∧
  Terminal.rows t' !! 1%nat = Some (py "becond") ∧
  Terminal.row t = 2%nat ∧
  Terminal.row t' = 3%nat ∧
  ¬ rewrites_only_line t t' 2 0 msg.
Proof.
  intros self msg w w' t t'. split_and!.
  - vm_compute. repeat split; try discriminate; lia.
  - reflexivity.
  - reflexivity.
  - reflexivity.
  - reflexivity.
  - intros (_ & Hrow & _). vm_compute in Hrow. discriminate.
Qed.


(** * Further properties *)

(** ** The page table *)

(** X1: when no label is repeated, the page table is the input itself and
    the output is the input pages in their order. *)
Theorem X1_distinct_labels_keep_input {K V : Type} `{Countable K}
    (pairs : list (K * V)) :
  NoDup pairs.*1 →
  OrderedDict.items (page_table pairs) = pairs ∧ reorder pairs = pairs.*2.
Proof.
  intros Hnd.
  assert (page_table pairs = pairs) as Heq.
  { unfold page_table. by rewrite fold_setitem_NoDup. }
  unfold reorder, OrderedDict.items. by rewrite Heq.
Qed.

Lemma X1_distinct_labels_witness :
  OrderedDict.items (page_table [(py "2", 0%nat); (py "1", 1%nat); (py "3", 2%nat)])
    = [(py "2", 0%nat); (py "1", 1%nat); (py "3", 2%nat)] ∧
  reorder [(py "2", 0%nat); (py "1", 1%nat); (py "3", 2%nat)]
    = [(py "2", 0%nat); (py "1", 1%nat); (py "3", 2%nat)].*2.
Proof.
  apply (X1_distinct_labels_keep_input
           [(py "2", 0%nat); (py "1", 1%nat); (py "3", 2%nat)]).
  vm_compute. repeat constructor; intros Hin;
    repeat (apply elem_of_cons in Hin as [Hin|Hin]; [discriminate|]);
    by apply elem_of_nil in Hin.
Defined.

Lemma page_table_snoc {K V : Type} `{Countable K} (pairs : list (K * V)) k v :
  page_table (pairs ++ [(k, v)]) = OrderedDict.setitem (page_table pairs) k v.
Proof. unfold page_table. by rewrite fold_left_app. Qed.

Lemma page_table_one_label {K V : Type} `{Countable K} (pairs : list (K * V)) k :
  Forall (λ kv, kv.1 = k) pairs →
  page_table pairs = [] ∨ ∃ v, page_table pairs = [(k, v)].
Proof.
  induction pairs as [|[k' v'] pairs IH] using rev_ind; intros Hall; [by left|].
  apply Forall_app in Hall as [Hall Hlast].
  apply Forall_cons in Hlast as [Hlast _]. simpl in Hlast. subst k'.
  right. exists v'. rewrite page_table_snoc.
  destruct (IH Hall) as [->|[v ->]]; simpl; [done|].
  by rewrite decide_True.
Qed.

(** X2: when all pages carry one and the same label, the output is one page,
    the last page of the input. *)
Theorem X2_one_label_last_page {K V : Type} `{Countable K}
    (pairs : list (K * V)) (k : K) (v : V) :
  Forall (λ kv, kv.1 = k) pairs →
  reorder (pairs ++ [(k, v)]) = [v].
Proof.
  intros Hall. unfold reorder, OrderedDict.items. rewrite page_table_snoc.
  destruct (page_table_one_label pairs k Hall) as [->|[v' ->]]; simpl; [done|].
  by rewrite decide_True.
Qed.

Lemma X2_one_label_witness :
  reorder ([(py "7", 0%nat); (py "7", 1%nat)] ++ [(py "7", 2%nat)]) = [2%nat].
Proof.
  apply (X2_one_label_last_page [(py "7", 0%nat); (py "7", 1%nat)] (py "7") 2%nat).
  repeat constructor.
Defined.

(** X3: every entry of the page table comes from the last occurrence of its
    label in the input, so every output page is the last page of some
    label. *)
Theorem X3_entries_are_last_occurrences {K V : Type} `{Countable K}
    (pairs : list (K * V)) (k : K) (v : V) :
  (k, v) ∈ OrderedDict.items (page_table pairs) →
  ∃ l1 l2, pairs = l1 ++ (k, v) :: l2 ∧ k ∉ l2.*1.
Proof.
  unfold OrderedDict.items. intros Hin.
  assert (k ∈ pairs.*1) as Hk.
  { apply elem_of_first_seen. rewrite <- page_table_keys.
    by apply (list_elem_of_fmap_2 fst) in Hin. }
  destruct (split_last_label pairs k Hk) as (l1 & v' & l2 & -> & Hl2).
  pose proof (page_table_last l1 k v' l2 Hl2) as Hin'.
  pose proof (page_table_NoDup (l1 ++ (k, v') :: l2)) as Hnd.
  assert (v = v') as -> by (by eapply NoDup_fst_functional).
  by exists l1, l2.
Qed.

Lemma X3_entries_witness :
  ∃ l1 l2,
    [(py "1", 0%nat); (py "2", 1%nat); (py "1", 2%nat)] = l1 ++ (py "1", 2%nat) :: l2 ∧
    py "1" ∉ l2.*1.
Proof.
  apply (X3_entries_are_last_occurrences
           [(py "1", 0%nat); (py "2", 1%nat); (py "1", 2%nat)] (py "1") 2%nat).
  vm_compute. left.
Defined.

Lemma reorder_subseteq {K V : Type} `{Countable K} (pairs : list (K * V)) :
  reorder pairs ⊆ pairs.*2.
Proof.
  intros v (kv & -> & Hin)%list_elem_of_fmap. apply list_elem_of_fmap.
  exists kv. split; [done|]. by apply page_table_subseteq.
Qed.

Lemma NoDup_snd_functional {K V : Type} (l : list (K * V)) k k' v :
  NoDup l.*2 → (k, v) ∈ l → (k', v) ∈ l → k = k'.
Proof.
  induction l as [|[k0 v0] l IH]; csimpl; [by intros _ ?%elem_of_nil|].
  intros [Hv0 Hnd]%NoDup_cons [Heq|Hin]%elem_of_cons [Heq'|Hin']%elem_of_cons.
  - congruence.
  - injection Heq as -> ->. destruct Hv0. by apply (list_elem_of_fmap_2 snd) in Hin'.
  - injection Heq' as -> ->. destruct Hv0. by apply (list_elem_of_fmap_2 snd) in Hin.
  - by apply IH.
Qed.

Lemma reorder_NoDup {K V : Type} `{Countable K} (pairs : list (K * V)) :
  NoDup pairs.*2 → NoDup (reorder pairs).
Proof.
  intros Hnd. unfold reorder, OrderedDict.items.
  apply NoDup_fmap_2_strong.
  - intros [k1 v1] [k2 v2] Hin1%page_table_subseteq Hin2%page_table_subseteq Heq.
    simpl in Heq. subst v2. f_equal. by eapply NoDup_snd_functional.
  - eapply NoDup_fmap_1. apply page_table_NoDup.
Qed.

(** X4: the output holds only pages of the input, and when the input pages
    are pairwise distinct (as the page numbers of a document are) no page is
    output twice. *)
Theorem X4_output_pages_from_input_once {K V : Type} `{Countable K}
    (pairs : list (K * V)) :
  reorder pairs ⊆ pairs.*2 ∧
  (NoDup pairs.*2 → NoDup (reorder pairs)).
Proof. split; [apply reorder_subseteq|apply reorder_NoDup]. Qed.

Lemma X4_output_pages_witness :
  reorder [(py "1", 0%nat); (py "2", 1%nat); (py "1", 2%nat)]
    ⊆ [(py "1", 0%nat); (py "2", 1%nat); (py "1", 2%nat)].*2 ∧
  NoDup (reorder [(py "1", 0%nat); (py "2", 1%nat); (py "1", 2%nat)]).
Proof.
  destruct (X4_output_pages_from_input_once
              [(py "1", 0%nat); (py "2", 1%nat); (py "1", 2%nat)]) as [Hsub Hnd].
  split; [exact Hsub|]. apply Hnd.
  vm_compute. repeat constructor; intros Hin;
    repeat (apply elem_of_cons in Hin as [Hin|Hin]; [discriminate|]);
    by apply elem_of_nil in Hin.
Defined.

(** ** collections.OrderedDict *)

Lemma setitem_keys {K V : Type} `{EqDecision K} (d : OrderedDict.t K V) k v :
  (OrderedDict.setitem d k v).*1 = if decide (k ∈ d.*1) then d.*1 else d.*1 ++ [k].
Proof.
  destruct (decide (k ∈ d.*1)) as [Hin|Hnin].
  - induction d as [|[k' v'] d IH]; csimpl; [by apply elem_of_nil in Hin|].
    destruct (decide (k' = k)) as [->|Hne]; csimpl; [done|].
    apply elem_of_cons in Hin as [Heq|Hin]; [simpl in Heq; congruence|].
    f_equal. by apply IH.
  - induction d as [|[k' v'] d IH]; csimpl; [done|].
    apply not_elem_of_cons in Hnin as [Hne Hnin].
    destruct (decide (k' = k)) as [->|_]; csimpl; [done|]. f_equal. by apply IH.
Qed.

(** X5: [d[k] = v] on a dictionary with pairwise distinct keys keeps the keys
    distinct, keeps the order of the keys that were there, adds at most the
    key [k] at the end, and afterwards [k] looks up [v] while every other key
    looks up what it did before. *)
Theorem X5_setitem_insert_lookup {K V : Type} `{EqDecision K}
    (d : OrderedDict.t K V) (k : K) (v : V) :
  NoDup (OrderedDict.keys d) →
  NoDup (OrderedDict.keys (OrderedDict.setitem d k v)) ∧
  OrderedDict.keys (OrderedDict.setitem d k v) =
    (if decide (k ∈ OrderedDict.keys d) then OrderedDict.keys d
     else OrderedDict.keys d ++ [k]) ∧
  OrderedDict.get (OrderedDict.setitem d k v) k = Some v ∧
  (∀ k', k' ≠ k →
     OrderedDict.get (OrderedDict.setitem d k v) k' = OrderedDict.get d k').
Proof.
  unfold OrderedDict.keys. intros Hnd. rewrite setitem_keys. split_and!.
  - destruct (decide (k ∈ d.*1)); [done|].
    apply NoDup_app. split_and!; [done| |apply NoDup_singleton].
    intros k' Hin ->%list_elem_of_singleton. done.
  - done.
  - induction d as [|[k0 v0] d IH]; simpl.
    + by rewrite decide_True.
    + apply NoDup_cons in Hnd as [_ Hnd].
      destruct (decide (k0 = k)) as [->|Hne]; simpl.
      * by rewrite decide_True.
      * rewrite decide_False by done. by apply IH.
  - intros k' Hne. clear Hnd. induction d as [|[k0 v0] d IH]; simpl.
    + by rewrite decide_False by congruence.
    + destruct (decide (k0 = k)) as [->|Hne0]; simpl.
      * by rewrite !decide_False by congruence.
      * destruct (decide (k0 = k')); [done|apply IH].
Qed.

Lemma X5_setitem_witness :
  let d : OrderedDict.t str nat := [(py "1", 0%nat); (py "2", 1%nat)] in
  NoDup (OrderedDict.keys (OrderedDict.setitem d (py "1") 2%nat)) ∧
  OrderedDict.keys (OrderedDict.setitem d (py "1") 2%nat) =
    (if decide (py "1" ∈ OrderedDict.keys d) then OrderedDict.keys d
     else OrderedDict.keys d ++ [py "1"]) ∧
  OrderedDict.get (OrderedDict.setitem d (py "1") 2%nat) (py "1") = Some 2%nat ∧
  (∀ k', k' ≠ py "1" →
     OrderedDict.get (OrderedDict.setitem d (py "1") 2%nat) k' = OrderedDict.get d k').
Proof.
  intros d. apply (X5_setitem_insert_lookup d (py "1") 2%nat).
  vm_compute. repeat constructor; intros Hin;
    repeat (apply elem_of_cons in Hin as [Hin|Hin]; [discriminate|]);
    by apply elem_of_nil in Hin.
Defined.

(** ** organize_file as a whole *)



(** X7: [organize_file] changes no file other than its output file, whatever
    it returns. *)
Theorem X7_only_the_output_file_is_written
    (format_reduction : nat → nat → str) (logger : Logger.t)
    (line : Z) (file_name directory output : str) (w : world) (path : str) :
  path ≠ path_join output file_name →
  files (organize_file format_reduction logger
           (line, file_name, directory, output) w).2 !! path = files w !! path.
Proof.
  intros Hpath.
  destruct (files w !! path_join directory file_name) as [pdf|] eqn:Hfile.
  - destruct (organize_file_files format_reduction logger pdf line file_name
                directory output w Hfile) as [-> | [writer ->]]; [done|].
    by rewrite lookup_insert_ne.
  - by rewrite organize_file_missing.
Qed.

Lemma X7_only_the_output_file_witness :
  let p := {| extractText := py "1/1"; body := 1 |} in
  let w := {| stdout := []; files := {[ py "in/a.pdf" := [p]; py "in/b.pdf" := [] ]} |} in
  files (organize_file (λ _ _, py "0.00") {| Logger.num := 1 |}
           (0, py "a.pdf", py "in", py "out") w).2 !! py "in/b.pdf"
  = files w !! py "in/b.pdf".
Proof.
  intros p w.
  apply (X7_only_the_output_file_is_written (λ _ _, py "0.00") {| Logger.num := 1 |}
           0 (py "a.pdf") (py "in") (py "out") w (py "in/b.pdf")).
  vm_compute. discriminate.
Defined.

Lemma reorder_length_le {K V : Type} `{Countable K} (pairs : list (K * V)) :
  (length (reorder pairs) ≤ length pairs)%nat.
Proof.
  unfold reorder, OrderedDict.items.
  rewrite length_fmap, <- (length_fmap fst), page_table_keys.
  rewrite <- (length_fmap fst pairs). generalize (pairs.*1). intros ks.
  induction ks as [|k ks IH]; simpl; [lia|].
  pose proof (length_filter (λ k', k' ≠ k) (first_seen ks)). lia.
Qed.

Lemma reorder_nonempty {K V : Type} `{Countable K} (pairs : list (K * V)) :
  pairs ≠ [] → reorder pairs ≠ [].
Proof.
  intros Hne Hnil. apply (f_equal length) in Hnil.
  unfold reorder, OrderedDict.items in Hnil.
  rewrite length_fmap, <- (length_fmap fst), page_table_keys in Hnil.
  destruct pairs as [|[k v] pairs]; [done|]. discriminate.
Qed.

(** The pages that come out of the table, with the labels they are kept
    under. *)
Lemma output_labels (pdf : PdfFileReader) (labels : list str) :
  Forall2 (λ page label, page_label page = Ok label) pdf labels →
  Forall2 (λ page label, page_label page = Ok label)
    (reorder (zip labels pdf)) (page_table (zip labels pdf)).*1 ∧
  NoDup (page_table (zip labels pdf)).*1.
Proof.
  intros Hlabels. split; [|apply page_table_NoDup].
  unfold reorder, OrderedDict.items.
  assert (Forall (λ kv, page_label kv.2 = Ok kv.1) (page_table (zip labels pdf)))
    as Hall.
  { apply Forall_forall. intros [k page] Hin%page_table_subseteq.
    by eapply zip_labels_elem. }
  induction Hall as [|[k page] d Hhead _ IH]; csimpl; by constructor.
Qed.

(** X8: when [organize_file] returns normally, the output file holds a
    document that is not empty, has no more pages than the source document,
    holds only pages of the source document, and in which no two pages have
    the same label. *)
Theorem X8_written_document_is_deduplicated
    (format_reduction : nat → nat → str) (logger : Logger.t)
    (line : Z) (file_name directory output : str) (w w' : world) :
  organize_file format_reduction logger (line, file_name, directory, output) w
    = (Ok (), w') →
  ∃ (pdf out_pdf : PdfFileReader) (out_labels : list str),
    files w !! path_join directory file_name = Some pdf ∧
    files w' !! path_join output file_name = Some out_pdf ∧
    out_pdf ≠ [] ∧
    (length out_pdf ≤ length pdf)%nat ∧
    out_pdf ⊆ pdf ∧
    Forall2 (λ page label, page_label page = Ok label) out_pdf out_labels ∧
    NoDup out_labels.
Proof.
  intros Hrun.
  destruct (files w !! path_join directory file_name) as [pdf|] eqn:Hfile;
    [|by rewrite organize_file_missing in Hrun].
  destruct (organize_file_ok_inv _ _ _ _ _ _ _ _ _ Hrun Hfile)
    as (labels & Hnil & Hlabels & Hfiles).
  pose proof (Forall2_length _ _ _ Hlabels) as Hlen.
  destruct (output_labels pdf labels Hlabels) as [Hout Hnd].
  exists pdf, (reorder (zip labels pdf)), (page_table (zip labels pdf)).*1.
  split_and!; [done| |  | | |done|done].
  - rewrite Hfiles. by rewrite lookup_insert_eq.
  - apply reorder_nonempty. destruct pdf, labels; done.
  - etrans; [apply reorder_length_le|]. rewrite length_zip. lia.
  - etrans; [apply reorder_subseteq|]. by rewrite snd_zip by lia.
Qed.

Lemma X8_written_document_witness :
  let p1 := {| extractText := py "1/2"; body := 1 |} in
  let p2 := {| extractText := py "2/2"; body := 2 |} in
  let p3 := {| extractText := py "1/2"; body := 3 |} in
  let w := {| stdout := []; files := {[ py "in/scan.pdf" := [p1; p2; p3] ]} |} in
  let run := organize_file (λ _ _, py "33.33") {| Logger.num := 1 |}
               (0, py "scan.pdf", py "in", py "out") w in
  ∃ (pdf out_pdf : PdfFileReader) (out_labels : list str),
    files w !! path_join (py "in") (py "scan.pdf") = Some pdf ∧
    files run.2 !! path_join (py "out") (py "scan.pdf") = Some out_pdf ∧
    out_pdf ≠ [] ∧
    (length out_pdf ≤ length pdf)%nat ∧
    out_pdf ⊆ pdf ∧
    Forall2 (λ page label, page_label page = Ok label) out_pdf out_labels ∧
    NoDup out_labels.
Proof.
  intros p1 p2 p3 w run.
  apply (X8_written_document_is_deduplicated (λ _ _, py "33.33") {| Logger.num := 1 |}
           0 (py "scan.pdf") (py "in") (py "out") w run.2).
  vm_compute. reflexivity.
Defined.

(** X9: organizing an organized file changes nothing. When [organize_file]
    has returned, and a second run that reads the output file of the first
    returns as well, the second run has written the same document. *)
Theorem X9_second_run_writes_the_same_document
    (format_reduction format_reduction2 : nat → nat → str) (logger logger2 : Logger.t)
    (line line2 : Z) (file_name directory output output2 : str) (w w' w'' : world) :
  organize_file format_reduction logger (line, file_name, directory, output) w
    = (Ok (), w') →
  organize_file format_reduction2 logger2 (line2, file_name, output, output2) w'
    = (Ok (), w'') →
  files w'' !! path_join output2 file_name = files w' !! path_join output file_name.
Proof.
  intros Hrun Hrun2.
  destruct (files w !! path_join directory file_name) as [pdf|] eqn:Hfile;
    [|by rewrite organize_file_missing in Hrun].
  destruct (organize_file_ok_inv _ _ _ _ _ _ _ _ _ Hrun Hfile)
    as (labels & Hnil & Hlabels & Hfiles).
  pose proof (Forall2_length _ _ _ Hlabels) as Hlen.
  destruct (output_labels pdf labels Hlabels) as [Hout Hnd].
  set (out_pdf := reorder (zip labels pdf)) in *.
  set (out_labels := (page_table (zip labels pdf)).*1) in *.
  assert (files w' !! path_join output file_name = Some out_pdf) as Hfile2
    by (by rewrite Hfiles, lookup_insert_eq).
  destruct (organize_file_ok_inv _ _ _ _ _ _ _ _ _ Hrun2 Hfile2)
    as (labels2 & _ & Hlabels2 & Hfiles2).
  assert (labels2 = out_labels) as ->.
  { clear -Hout Hlabels2. revert labels2 Hlabels2.
    induction Hout as [|page label pages ls Hhead _ IH]; intros labels2 Hlabels2;
      inversion Hlabels2; subst; [done|].
    f_equal; [congruence|by apply IH]. }
  pose proof (Forall2_length _ _ _ Hout) as Hlen'.
  rewrite Hfiles2, Hfile2, lookup_insert_eq. f_equal.
  unfold reorder at 1, OrderedDict.items. unfold page_table.
  rewrite fold_setitem_NoDup.
  - unfold OrderedDict.empty. rewrite app_nil_l. by rewrite snd_zip by lia.
  - simpl. by rewrite fst_zip by lia.
Qed.

Lemma X9_second_run_witness :
  let p1 := {| extractText := py "1/2"; body := 1 |} in
  let p2 := {| extractText := py "2/2"; body := 2 |} in
  let p3 := {| extractText := py "1/2"; body := 3 |} in
  let w := {| stdout := []; files := {[ py "in/scan.pdf" := [p1; p2; p3] ]} |} in
  let w' := (organize_file (λ _ _, py "33.33") {| Logger.num := 1 |}
               (0, py "scan.pdf", py "in", py "out") w).2 in
  let w'' := (organize_file (λ _ _, py "0.00") {| Logger.num := 1 |}
                (0, py "scan.pdf", py "out", py "again") w').2 in
  files w'' !! path_join (py "again") (py "scan.pdf")
    = files w' !! path_join (py "out") (py "scan.pdf").
Proof.
  intros p1 p2 p3 w w' w''.
  apply (X9_second_run_writes_the_same_document (λ _ _, py "33.33") (λ _ _, py "0.00")
           {| Logger.num := 1 |} {| Logger.num := 1 |} 0 0 (py "scan.pdf") (py "in")
           (py "out") (py "again") w w' w'').
  - vm_compute. reflexivity.
  - vm_compute. reflexivity.
Defined.

(** ** Lines and labels *)

Lemma splitlines_from_cons cur c s :
  splitlines_from cur (c :: s) =
  if is_linebreak c then rev cur :: splitlines_from [] (after_boundary c s)
  else splitlines_from (c :: cur) s.
Proof.
  destruct s as [|c' s]; [reflexivity|].
  destruct (is_linebreak c) eqn:Hc.
  - unfold after_boundary. case_bool_decide as Hcrlf.
    + simpl. rewrite Hc. by rewrite bool_decide_true.
    + simpl. rewrite Hc. by rewrite bool_decide_false.
  - simpl. by rewrite Hc.
Qed.

Lemma after_boundary_suffix c s :
  ∃ d, s = d ++ after_boundary c s.
Proof.
  destruct s as [|c' s]; simpl; [by exists []|].
  case_bool_decide; [by exists [c']|by exists []].
Qed.

Lemma splitlines_from_one_line cur s :
  Forall (λ c, is_linebreak c = false) s →
  cur ≠ [] ∨ s ≠ [] →
  splitlines_from cur s = [rev cur ++ s].
Proof.
  intros Hs. revert cur. induction Hs as [|c s Hc _ IH]; intros cur Hne.
  - destruct Hne as [Hne|Hne]; [|done].
    simpl. rewrite app_nil_r. by destruct cur.
  - rewrite splitlines_from_cons, Hc, IH by (by left).
    simpl. by rewrite <- app_assoc.
Qed.

(** The lines of a text that ends with a line without line boundary, after a
    line boundary or at the start of the text. *)
Lemma splitlines_from_last_line (n : nat) body c last_line cur :
  (length body ≤ n)%nat →
  is_linebreak c = true →
  last_line ≠ [] →
  Forall (λ c, is_linebreak c = false) last_line →
  ∃ lines, splitlines_from cur (body ++ c :: last_line) = lines ++ [last_line].
Proof.
  intros Hn Hc Hne Hlast. revert body cur Hn.
  assert (∀ cur, ∃ lines,
            splitlines_from cur (c :: last_line) = lines ++ [last_line]) as Hbase.
  { intros cur. rewrite splitlines_from_cons, Hc.
    destruct last_line as [|c' s]; [done|]. simpl after_boundary.
    apply Forall_cons in Hlast as Hc'. destruct Hc' as [Hc' _].
    rewrite bool_decide_false; cycle 1.
    { intros [_ ->]. vm_compute in Hc'. discriminate. }
    rewrite splitlines_from_one_line by (done || by right).
    by exists [rev cur]. }
  induction n as [|n IH]; intros body cur Hn.
  - destruct body; [|simpl in Hn; lia]. apply Hbase.
  - destruct body as [|x body]; [apply Hbase|]. simpl in Hn.
    rewrite <- app_comm_cons, splitlines_from_cons.
    destruct (is_linebreak x) eqn:Hx; [|apply IH; lia].
    destruct body as [|y body]; cbn [app after_boundary]; case_bool_decide.
    + rewrite splitlines_from_one_line by (done || by right).
      by exists [rev cur].
    + destruct (Hbase []) as [lines ->]. by exists (rev cur :: lines).
    + destruct (IH body []) as [lines ->]; [simpl in Hn; lia|].
      by exists (rev cur :: lines).
    + destruct (IH (y :: body) []) as [lines Hlines]; [lia|].
      rewrite <- app_comm_cons in Hlines. rewrite Hlines.
      by exists (rev cur :: lines).
Qed.

(** X10: a page whose text ends with a line "a/b", at the start of the text
    or after a line boundary, gets the label "a": the printed number in front
    of the total. *)
Theorem X10_label_of_numbered_last_line
    (pdf : PdfFileReader) (i : nat) (page : Page) (body a b : str) :
  pdf !! i = Some page →
  extractText page = body ++ a ++ SLASH :: b →
  (body = [] ∨ ∃ body' c, body = body' ++ [c] ∧ is_linebreak c = true) →
  Forall (λ c, is_linebreak c = false) a →
  Forall (λ c, is_linebreak c = false) b →
  SLASH ∉ a →
  get_real_page_num pdf i = Ok a.
Proof.
  intros Hpage Htext Hbody Ha Hb Hslash.
  assert (Forall (λ c, is_linebreak c = false) (a ++ SLASH :: b)) as Hline.
  { apply Forall_app. split; [done|]. by constructor. }
  assert (∃ lines, splitlines (extractText page) = lines ++ [a ++ SLASH :: b])
    as [lines Hlines].
  { rewrite Htext. unfold splitlines.
    destruct Hbody as [->|(body' & c & -> & Hc)].
    - exists []. rewrite splitlines_from_one_line; [done|done|].
      right. by destruct a.
    - rewrite <- app_assoc. simpl.
      apply (splitlines_from_last_line (length body')); [lia|done| |done].
      by destruct a. }
  rewrite (get_real_page_num_page _ _ _ Hpage).
  destruct (page_label_last_line _ _ _ Hlines) as (r & -> & Hnot & Hr).
  f_equal. destruct Hr as [->|[rest Hr]].
  - destruct Hnot. apply elem_of_app. right. left.
  - clear -Hr Hslash Hnot. revert r Hr Hnot.
    induction a as [|x a IH]; intros r Hr Hnot.
    + destruct r as [|y r]; [done|]. simpl in Hr. injection Hr as <- _.
      destruct Hnot. left.
    + apply not_elem_of_cons in Hslash as [Hx Hslash].
      destruct r as [|y r]; simpl in Hr.
      * injection Hr as -> _. done.
      * injection Hr as <- Hr. f_equal. apply IH; [done..|].
        intros Hin. apply Hnot. by right.
Qed.

Lemma X10_label_of_numbered_last_line_witness :
  let page := {| extractText := (py "Results" ++ [CR; LF]) ++ py "12" ++ SLASH :: py "40";
                 body := 0 |} in
  get_real_page_num [page] 0 = Ok (py "12").
Proof.
  intros page.
  apply (X10_label_of_numbered_last_line [page] 0 page (py "Results" ++ [CR; LF])
           (py "12") (py "40")).
  - reflexivity.
  - reflexivity.
  - right. exists (py "Results" ++ [CR]), LF. split; reflexivity.
  - vm_compute. repeat constructor.
  - vm_compute. repeat constructor.
  - vm_compute. intros Hin.
    repeat (apply elem_of_cons in Hin as [Hin|Hin]; [discriminate|]).
    by apply elem_of_nil in Hin.
Defined.

(** Every line of [splitlines] is free of line boundaries and is a piece of
    the text. *)
Lemma splitlines_from_lines (n : nat) s cur line :
  (length s ≤ n)%nat →
  Forall (λ c, is_linebreak c = false) cur →
  line ∈ splitlines_from cur s →
  Forall (λ c, is_linebreak c = false) line ∧
  ∃ pre post, rev cur ++ s = pre ++ line ++ post.
Proof.
  revert s cur. induction n as [|n IH]; intros s cur Hn Hcur Hin.
  - destruct s; [|simpl in Hn; lia]. simpl in Hin.
    destruct cur as [|c cur]; [by apply elem_of_nil in Hin|].
    apply list_elem_of_singleton in Hin as ->.
    split; [by apply Forall_rev|]. exists [], []. by rewrite !app_nil_r.
  - destruct s as [|c s].
    + simpl in Hin. destruct cur as [|c cur]; [by apply elem_of_nil in Hin|].
      apply list_elem_of_singleton in Hin as ->.
      split; [by apply Forall_rev|]. exists [], []. by rewrite !app_nil_r.
    + simpl in Hn. rewrite splitlines_from_cons in Hin.
      destruct (is_linebreak c) eqn:Hc.
      * apply elem_of_cons in Hin as [->|Hin].
        { split; [by apply Forall_rev|]. by exists [], (c :: s). }
        destruct (after_boundary_suffix c s) as [d Hd].
        destruct (IH (after_boundary c s) []) as [Hline (pre & post & Heq)];
          [|constructor|done|].
        { apply (f_equal length) in Hd. rewrite length_app in Hd. lia. }
        split; [done|]. simpl in Heq.
        exists (rev cur ++ c :: d ++ pre), post.
        rewrite Hd at 1. rewrite Heq, <- !app_assoc. simpl.
        by rewrite <- !app_assoc.
      * destruct (IH s (c :: cur)) as [Hline (pre & post & Heq)];
          [lia|by constructor|done|].
        split; [done|]. exists pre, post. rewrite <- Heq. simpl.
        by rewrite <- app_assoc.
Qed.

(** X11: a label that [get_real_page_num] returns is a piece of the text of
    the page, within one line, and holds no "/". *)
Theorem X11_label_is_a_piece_of_one_line
    (pdf : PdfFileReader) (i : nat) (label : str) :
  get_real_page_num pdf i = Ok label →
  ∃ page,
    pdf !! i = Some page ∧
    (SLASH ∉ label) ∧
    Forall (λ c, is_linebreak c = false) label ∧
    ∃ pre post, extractText page = pre ++ label ++ post.
Proof.
  intros Hlabel. destruct (pdf !! i) as [page|] eqn:Hpage; cycle 1.
  { unfold get_real_page_num, getPage in Hlabel. by rewrite Hpage in Hlabel. }
  exists page. split; [done|].
  rewrite (get_real_page_num_page _ _ _ Hpage) in Hlabel.
  destruct (splitlines (extractText page)) as [|last_line lines _] eqn:Hlines
    using rev_ind.
  { apply splitlines_nil in Hlines. rewrite page_label_no_text in Hlabel by done.
    discriminate. }
  destruct (page_label_last_line _ _ _ Hlines) as (r & Hr & Hnot & Hbefore).
  assert (r = label) as -> by congruence.
  destruct (splitlines_from_lines (length (extractText page)) (extractText page)
              [] last_line) as [Hline (pre & post & Htext)]; [lia|constructor| |].
  { fold (splitlines (extractText page)). rewrite Hlines.
    apply elem_of_app. right. left. }
  simpl in Htext. split; [done|].
  destruct Hbefore as [->|[rest ->]].
  - split; [done|]. by exists pre, post.
  - apply Forall_app in Hline as [Hline _]. split; [done|].
    exists pre, (SLASH :: rest ++ post). rewrite Htext, <- !app_assoc. done.
Qed.

Lemma X11_label_witness :
  let page := {| extractText := py "Results" ++ [LF] ++ py "12/40"; body := 0 |} in
  ∃ page',
    [page] !! 0%nat = Some page' ∧
    (SLASH ∉ py "12") ∧
    Forall (λ c, is_linebreak c = false) (py "12") ∧
    ∃ pre post, extractText page' = pre ++ py "12" ++ post.
Proof.
  intros page. apply (X11_label_is_a_piece_of_one_line [page] 0 (py "12")).
  reflexivity.
Defined.

(** ** The logger on the screen *)

Lemma line_feed_erase_facts (width : nat) t :
  Terminal.state t = Terminal.Ground →
  Terminal.col t = 0%nat →
  (Terminal.row t < length (Terminal.rows t))%nat →
  let t1 := Terminal.line_feed (Terminal.erase_in_line width 0 t) in
  Terminal.state t1 = Terminal.Ground ∧
  Terminal.col t1 = 0%nat ∧
  Terminal.cursor_visible t1 = Terminal.cursor_visible t ∧
  length (Terminal.rows t1) = length (Terminal.rows t) ∧
  (if bool_decide (S (Terminal.row t) < length (Terminal.rows t))%nat
   then Terminal.row t1 = S (Terminal.row t) ∧
        Terminal.rows t1 = <[Terminal.row t := []]> (Terminal.rows t)
   else Terminal.row t1 = Terminal.row t ∧
        Terminal.rows t1 = drop 1 (<[Terminal.row t := []]> (Terminal.rows t)) ++ [[]]).
Proof.
  intros Hstate Hcol Hrow t1. subst t1.
  assert (Terminal.erase_in_line width 0 t =
          {| Terminal.rows := <[Terminal.row t := []]> (Terminal.rows t);
             Terminal.row := Terminal.row t; Terminal.col := 0;
             Terminal.cursor_visible := Terminal.cursor_visible t;
             Terminal.state := Terminal.Ground;
             Terminal.cells := Terminal.cells t |}) as ->.
  { unfold Terminal.erase_in_line. rewrite Hcol, Hstate. f_equal.
    rewrite list_insert_alter. by apply list_alter_ext. }
  unfold Terminal.line_feed.
  cbn [Terminal.rows Terminal.row Terminal.col Terminal.cursor_visible
       Terminal.state].
  rewrite length_insert.
  case_bool_decide;
    cbn [Terminal.rows Terminal.row Terminal.col Terminal.cursor_visible
         Terminal.state];
    rewrite ?length_app, ?length_drop, ?length_insert; cbn [length];
    split_and!; (done || lia).
Qed.

Section reserve_blank_rows.
Context (width : nat).

(** The rows that [k] rounds of clearing a row and going to the next leave
    above the cursor are blank. *)
Lemma run_reserve_blank_rows k t :
  Terminal.state t = Terminal.Ground →
  Terminal.col t = 0%nat →
  (Terminal.row t < length (Terminal.rows t))%nat →
  let t' := Terminal.run width t (mjoin (replicate k (ESC :: py "[K" ++ [LF]))) in
  Terminal.state t' = Terminal.Ground ∧
  Terminal.col t' = 0%nat ∧
  Terminal.cursor_visible t' = Terminal.cursor_visible t ∧
  length (Terminal.rows t') = length (Terminal.rows t) ∧
  Terminal.row t' = ((Terminal.row t + k) `min` (length (Terminal.rows t) - 1))%nat ∧
  ∀ j, (Terminal.row t' - k ≤ j < Terminal.row t')%nat →
       Terminal.rows t' !! j = Some [].
Proof.
  intros Hstate Hcol Hrow. induction k as [|k IH]; intros t'; subst t'.
  - simpl. split_and!; [done..|lia|intros j Hj; lia].
  - rewrite replicate_S_end, join_app, run_app.
    destruct IH as (Hstate' & Hcol' & Hvis' & Hlen' & Hrow' & Hblank).
    set (tk := Terminal.run width t (mjoin (replicate k (ESC :: py "[K" ++ [LF]))))
      in *.
    change (mjoin [ESC :: py "[K" ++ [LF]]) with (ESC :: 91%N :: [] ++ 75%N :: [LF]).
    rewrite run_csi; [|done|constructor|lia].
    change (Terminal.dispatch width [] 75 tk) with (Terminal.erase_in_line width 0 tk).
    rewrite run_cons, run_nil.
    assert (Terminal.feed width (Terminal.erase_in_line width 0 tk) LF
            = Terminal.line_feed (Terminal.erase_in_line width 0 tk)) as ->.
    { unfold Terminal.feed. cbn [Terminal.erase_in_line Terminal.state].
      by rewrite Hstate'. }
    destruct (line_feed_erase_facts width tk) as (Hs1 & Hc1 & Hv1 & Hl1 & Hcase);
      [done|done|lia|].
    set (t1 := Terminal.line_feed (Terminal.erase_in_line width 0 tk)) in *.
    case_bool_decide as Hroom; destruct Hcase as [Hr1 Hrows1].
    + split_and!; [done|done|congruence|congruence|lia|].
      intros j Hj. rewrite Hrows1.
      destruct (decide (j = Terminal.row tk)) as [->|Hne].
      * apply list_lookup_insert_eq. lia.
      * rewrite list_lookup_insert_ne by done. apply Hblank. lia.
    + split_and!; [done|done|congruence|congruence|lia|].
      intros j Hj. rewrite Hrows1.
      rewrite lookup_app_l by (rewrite length_drop, length_insert; lia).
      rewrite lookup_drop.
      destruct (decide (1 + j = Terminal.row tk)%nat) as [->|Hne].
      * apply list_lookup_insert_eq. lia.
      * rewrite list_lookup_insert_ne by done. apply Hblank. lia.
Qed.
End reserve_blank_rows.

(** X12: on a cursor at the start of a row of a screen that has more rows
    than the logger has lines, [Logger.__init__] leaves a block of [num]
    blank rows just above the cursor, the cursor at the start of its row and
    hidden, and the screen with as many rows as before; it returns the
    logger of [num] lines. *)
Theorem X12_init_reserves_blank_block
    (width : nat) (t0 : Terminal.tty) (num : Z) (w : world) :
  let t := Terminal.run width t0 (stdout w) in
  let t' := Terminal.run width t0 (stdout (Logger.__init__ num w).2) in
  Terminal.state t = Terminal.Ground →
  Terminal.col t = 0%nat →
  (Terminal.row t < length (Terminal.rows t))%nat →
  0 ≤ num < Z.of_nat (length (Terminal.rows t)) →
  (Logger.__init__ num w).1 = Ok {| Logger.num := num |} ∧
  reserved t' num ∧
  Terminal.cursor_visible t' = false ∧
  length (Terminal.rows t') = length (Terminal.rows t) ∧
  ∀ line, 0 ≤ line < num → Terminal.rows t' !! block_row t' num line = Some [].
Proof.
  intros t t' Hstate Hcol Hrow Hnum. subst t'.
  rewrite init_eq. cbn [fst snd stdout]. rewrite !run_app. fold t.
  unfold str_repeat.
  destruct (run_reserve_blank_rows width (Z.to_nat num) t Hstate Hcol Hrow)
    as (Hstate' & Hcol' & Hvis' & Hlen' & Hrow' & Hblank).
  set (t1 := Terminal.run width t _) in *.
  change (ESC :: py "[?25l") with (ESC :: 91%N :: py "?25" ++ [108%N]).
  rewrite (run_csi width (py "?25") 108 t1 []), run_nil;
    [|done|repeat (constructor; [vm_compute; split; discriminate|]); constructor|lia].
  change (Terminal.dispatch width (py "?25") 108 t1)
    with (Terminal.set_cursor_visible false t1).
  unfold reserved, block_row.
  cbn [Terminal.set_cursor_visible Terminal.rows Terminal.row
       Terminal.col Terminal.cursor_visible Terminal.state].
  split_and!; [done|done|done|lia|lia|lia|done|done|].
  intros line Hline. apply Hblank. lia.
Qed.

Lemma X12_init_reserves_blank_block_witness :
  let w := {| stdout := py "$ organize" ++ [LF]; files := ∅ |} in
  let t' := Terminal.run 80 (Terminal.blank 24) (stdout (Logger.__init__ 3 w).2) in
  (Logger.__init__ 3 w).1 = Ok {| Logger.num := 3 |} ∧
  reserved t' 3 ∧
  Terminal.cursor_visible t' = false ∧
  length (Terminal.rows t') = length (Terminal.rows (Terminal.run 80 (Terminal.blank 24) (stdout w))) ∧
  ∀ line, 0 ≤ line < 3 → Terminal.rows t' !! block_row t' 3 line = Some [].
Proof.
  intros w.
  apply (X12_init_reserves_blank_block 80 (Terminal.blank 24) 3 w).
  - reflexivity.
  - reflexivity.
  - vm_compute. lia.
  - vm_compute. split; [discriminate|reflexivity].
Defined.

(** X13: [Logger.__del__] makes the cursor visible and changes nothing else
    on the screen. *)
Theorem X13_del_shows_the_cursor
    (width : nat) (t0 : Terminal.tty) (self : Logger.t) (w : world) :
  let t := Terminal.run width t0 (stdout w) in
  let t' := Terminal.run width t0 (stdout (Logger.__del__ self w).2) in
  Terminal.state t = Terminal.Ground →
  Terminal.cursor_visible t' = true ∧
  Terminal.rows t' = Terminal.rows t ∧
  Terminal.row t' = Terminal.row t ∧
  Terminal.col t' = Terminal.col t ∧
  Terminal.state t' = Terminal.Ground ∧
  files (Logger.__del__ self w).2 = files w.
Proof.
  intros t t' Hstate. subst t'.
  unfold Logger.__del__. rewrite print_ok by reflexivity. cbn [snd stdout files].
  rewrite run_app. fold t.
  change (ESC :: py "[?25h") with (ESC :: 91%N :: py "?25" ++ [104%N]).
  rewrite (run_csi width (py "?25") 104 t []), run_nil;
    [|done|repeat (constructor; [vm_compute; split; discriminate|]); constructor|lia].
  change (Terminal.dispatch width (py "?25") 104 t)
    with (Terminal.set_cursor_visible true t).
  by cbn.
Qed.

Lemma X13_del_shows_the_cursor_witness :
  let self := {| Logger.num := 2 |} in
  let w := (Logger.__init__ 2 {| stdout := []; files := ∅ |}).2 in
  let t := Terminal.run 80 (Terminal.blank 24) (stdout w) in
  let t' := Terminal.run 80 (Terminal.blank 24) (stdout (Logger.__del__ self w).2) in
  Terminal.cursor_visible t' = true ∧
  Terminal.rows t' = Terminal.rows t ∧
  Terminal.row t' = Terminal.row t ∧
  Terminal.col t' = Terminal.col t ∧
  Terminal.state t' = Terminal.Ground ∧
  files (Logger.__del__ self w).2 = files w.
Proof.
  intros self w.
  apply (X13_del_shows_the_cursor 80 (Terminal.blank 24) self w).
  reflexivity.
Defined.

Section log_sequences.
Context (width : nat).

(** Whether a message fits on a row depends on the terminal only through
    the cells that its characters take. *)
Lemma fits_row_cells t t' msg :
  Terminal.cells t' = Terminal.cells t → fits_row width t msg → fits_row width t' msg.
Proof. unfold fits_row. by intros ->. Qed.

Lemma fits_row_shown t msg :
  fits_row width t msg →
  Forall (λ c, Terminal.is_control c = false ∧ Terminal.cells t c = 1%nat) msg.
Proof.
  intros (_ & Hprintable & Hcells & _). apply Forall_forall. intros c Hc. split.
  - by eapply Forall_forall in Hprintable.
  - by eapply Forall_forall in Hcells.
Qed.

Lemma reserved_after_log t num line msg :
  0 ≤ line < num →
  reserved t num →
  fits_row width t msg →
  let t' := Terminal.run width t (log_text num line msg) in
  reserved t' num ∧
  Terminal.row t' = Terminal.row t ∧
  Terminal.cursor_visible t' = Terminal.cursor_visible t ∧
  Terminal.cells t' = Terminal.cells t ∧
  Terminal.rows t' = <[block_row t num line := msg]> (Terminal.rows t).
Proof.
  intros Hline Hres Hmsg t'. subst t'.
  rewrite (run_log_text width t num line msg Hline Hres (fits_row_shown _ _ Hmsg))
    by apply Hmsg.
  destruct Hres as (Hstate & Hcol & Hnum & Hrow).
  unfold reserved.
  cbn [Terminal.rows Terminal.row Terminal.col Terminal.cursor_visible
       Terminal.state Terminal.cells].
  rewrite length_insert. done.
Qed.

(** Several calls of [log] for one line: the line shows the last message. *)
Lemma run_logs msgs t num line :
  0 ≤ line < num →
  reserved t num →
  Forall (fits_row width t) msgs →
  let t' := Terminal.run width t (mjoin (log_text num line <$> msgs)) in
  reserved t' num ∧
  Terminal.row t' = Terminal.row t ∧
  Terminal.cursor_visible t' = Terminal.cursor_visible t ∧
  Terminal.rows t' =
    match last msgs with
    | Some msg => <[block_row t num line := msg]> (Terminal.rows t)
    | None => Terminal.rows t
    end.
Proof.
  intros Hline Hres Hmsgs. revert t Hres Hmsgs.
  induction msgs as [|msg msgs IH]; intros t Hres Hmsgs t'; subst t'.
  - done.
  - apply Forall_cons in Hmsgs as [Hmsg Hmsgs].
    rewrite fmap_cons. change (mjoin (?x :: ?l)) with (x ++ mjoin l).
    rewrite run_app.
    destruct (reserved_after_log t num line msg Hline Hres Hmsg)
      as (Hres1 & Hrow1 & Hvis1 & Hcells1 & Hrows1).
    set (t1 := Terminal.run width t (log_text num line msg)) in *.
    destruct (IH t1 Hres1) as (Hres' & Hrow' & Hvis' & Hrows').
    { eapply Forall_impl; [exact Hmsgs|]. intros m. by apply fits_row_cells. }
    split_and!; [done|congruence|congruence|].
    rewrite Hrows'. unfold block_row. rewrite Hrow1, Hrows1.
    destruct msgs as [|msg' msgs]; [done|].
    change (last (msg :: msg' :: msgs)) with (last (msg' :: msgs)).
    destruct (last (msg' :: msgs)) eqn:Hlast; [|by apply last_None in Hlast].
    by rewrite list_insert_insert_eq.
Qed.
End log_sequences.

(** X14: two calls of [log] for different lines of the block, with messages
    that each fit on a row, do not disturb each other: both return, in
    either order they leave the same screen, on which each of the two lines
    shows its message, and the block stays reserved for the next call. *)
Theorem X14_logs_to_different_lines_commute
    (width : nat) (t0 : Terminal.tty) (self : Logger.t)
    (line1 line2 : Z) (msg1 msg2 : str) (w : world) :
  let t := Terminal.run width t0 (stdout w) in
  let run12 := Logger.log self line2 msg2 (Logger.log self line1 msg1 w).2 in
  let run21 := Logger.log self line1 msg1 (Logger.log self line2 msg2 w).2 in
  let t12 := Terminal.run width t0 (stdout run12.2) in
  let t21 := Terminal.run width t0 (stdout run21.2) in
  0 ≤ line1 < Logger.num self →
  0 ≤ line2 < Logger.num self →
  line1 ≠ line2 →
  reserved t (Logger.num self) →
  fits_row width t msg1 →
  fits_row width t msg2 →
  run12.1 = Ok () ∧ run21.1 = Ok () ∧
  t12 = t21 ∧
  reserved t12 (Logger.num self) ∧
  Terminal.rows t12 !! block_row t (Logger.num self) line1 = Some msg1 ∧
  Terminal.rows t12 !! block_row t (Logger.num self) line2 = Some msg2 ∧
  ∀ j, j ≠ block_row t (Logger.num self) line1 →
       j ≠ block_row t (Logger.num self) line2 →
       Terminal.rows t12 !! j = Terminal.rows t !! j.
Proof.
  intros t run12 run21 t12 t21 Hline1 Hline2 Hne Hres Hmsg1 Hmsg2.
  subst t12 t21 run12 run21.
  rewrite !log_eq by apply Hmsg1 || apply Hmsg2. cbn [fst snd stdout].
  rewrite <- !app_assoc, !run_app. fold t.
  destruct (reserved_after_log width t _ line1 msg1 Hline1 Hres Hmsg1)
    as (Hres1 & Hrow1 & Hvis1 & Hcells1 & Hrows1).
  destruct (reserved_after_log width t _ line2 msg2 Hline2 Hres Hmsg2)
    as (Hres2 & Hrow2 & Hvis2 & Hcells2 & Hrows2).
  set (t1 := Terminal.run width t (log_text (Logger.num self) line1 msg1)) in *.
  set (t2 := Terminal.run width t (log_text (Logger.num self) line2 msg2)) in *.
  rewrite (run_log_text width t1 _ line2 msg2 Hline2 Hres1
             (fits_row_shown width _ _ (fits_row_cells width t t1 _ Hcells1 Hmsg2)))
    by apply Hmsg2.
  rewrite (run_log_text width t2 _ line1 msg1 Hline1 Hres2
             (fits_row_shown width _ _ (fits_row_cells width t t2 _ Hcells2 Hmsg1)))
    by apply Hmsg1.
  assert (block_row t1 (Logger.num self) line2 = block_row t (Logger.num self) line2)
    as -> by (unfold block_row; by rewrite Hrow1).
  assert (block_row t2 (Logger.num self) line1 = block_row t (Logger.num self) line1)
    as -> by (unfold block_row; by rewrite Hrow2).
  rewrite Hrows1, Hrows2, Hrow1, Hrow2, Hvis1, Hvis2, Hcells1, Hcells2.
  destruct Hres as (Hstate & Hcol & Hnum & Hrow).
  assert (block_row t (Logger.num self) line1 ≠ block_row t (Logger.num self) line2)
    as Hrows_ne by (unfold block_row; lia).
  assert (block_row t (Logger.num self) line1 < length (Terminal.rows t))%nat
    by (unfold block_row; lia).
  assert (block_row t (Logger.num self) line2 < length (Terminal.rows t))%nat
    by (unfold block_row; lia).
  split_and!.
  - done.
  - done.
  - f_equal. by apply list_insert_insert_ne.
  - unfold reserved. cbn. rewrite !length_insert. done.
  - cbn. rewrite list_lookup_insert_ne by done.
    by apply list_lookup_insert_eq.
  - cbn. apply list_lookup_insert_eq. by rewrite length_insert.
  - intros j Hj1 Hj2. cbn. by rewrite !list_lookup_insert_ne.
Qed.

Lemma X14_logs_to_different_lines_witness :
  let self := {| Logger.num := 2 |} in
  let w := (Logger.__init__ 2 {| stdout := []; files := ∅ |}).2 in
  let t := Terminal.run 80 (Terminal.blank 24) (stdout w) in
  let run12 := Logger.log self 1 (py "b.pdf: 1/3")
                 (Logger.log self 0 (py "a.pdf: 2/2") w).2 in
  let run21 := Logger.log self 0 (py "a.pdf: 2/2")
                 (Logger.log self 1 (py "b.pdf: 1/3") w).2 in
  let t12 := Terminal.run 80 (Terminal.blank 24) (stdout run12.2) in
  let t21 := Terminal.run 80 (Terminal.blank 24) (stdout run21.2) in
  run12.1 = Ok () ∧ run21.1 = Ok () ∧
  t12 = t21 ∧
  reserved t12 2 ∧
  Terminal.rows t12 !! block_row t 2 0 = Some (py "a.pdf: 2/2") ∧
  Terminal.rows t12 !! block_row t 2 1 = Some (py "b.pdf: 1/3") ∧
  ∀ j, j ≠ block_row t 2 0 → j ≠ block_row t 2 1 →
       Terminal.rows t12 !! j = Terminal.rows t !! j.
Proof.
  intros self w.
  apply (X14_logs_to_different_lines_commute 80 (Terminal.blank 24) self 0 1
           (py "a.pdf: 2/2") (py "b.pdf: 1/3") w).
  - simpl. lia.
  - simpl. lia.
  - lia.
  - vm_compute. repeat split; try discriminate; lia.
  - vm_compute. split_and!; [reflexivity|repeat constructor..|lia].
  - vm_compute. split_and!; [reflexivity|repeat constructor..|lia].
Defined.



(** ** organize_file on the screen *)

Section organize_prints.
Context (format_reduction : nat → nat → str) (logger : Logger.t).
Context (pdf : PdfFileReader) (line : Z) (file_name : str).

(** What the first loop prints: the progress messages of the pages it got
    to, each through [log]. *)
Lemma collect_pages_prints num_pages todo spinner pages w :
  encodable file_name = true →
  ∃ k,
    (collect_pages logger pdf line file_name num_pages todo spinner pages w).2 =
    {| stdout := stdout w ++
         mjoin (log_text (Logger.num logger) line <$>
                  take k (progress_texts file_name num_pages todo spinner));
       files := files w |} ∧
    (∀ pages',
       (collect_pages logger pdf line file_name num_pages todo spinner pages w).1
         = Ok pages' → (length todo ≤ k)%nat).
Proof.
  intros Hname. revert spinner pages w.
  induction todo as [|i todo IH]; intros spinner pages w.
  - exists 0%nat. simpl. rewrite app_nil_r. split; [by destruct w|done].
  - rewrite collect_pages_cons. cbn [progress_texts].
    erewrite bind_ok by (by apply log_eq; rewrite progress_text_encodable).
    unfold lift at 1, mbind at 1, M_bind at 1.
    destruct (get_real_page_num pdf i) as [label|e].
    + destruct (IH (S spinner) (OrderedDict.setitem pages label i)
                  {| stdout := stdout w ++ log_text (Logger.num logger) line
                                 (progress_text file_name num_pages spinner i);
                     files := files w |}) as (k & Hworld & Hk).
      exists (S k). cbn [take fmap list_fmap]. split.
      * rewrite Hworld. cbn [stdout files]. f_equal.
        change (mjoin (?x :: ?l)) with (x ++ mjoin l). by rewrite <- app_assoc.
      * intros pages' Hok. specialize (Hk pages' Hok). simpl. lia.
    + exists 1%nat. cbn [snd fst take fmap list_fmap]. split; [|done].
      rewrite take_0. cbn [fmap list_fmap].
      change (mjoin [?x]) with (x ++ []). by rewrite app_nil_r.
Qed.

Lemma collect_pages_ok_prints num_pages todo labels spinner pages w :
  encodable file_name = true →
  Forall2 (λ i lbl, get_real_page_num pdf i = Ok lbl) todo labels →
  collect_pages logger pdf line file_name num_pages todo spinner pages w =
  (Ok (fold_left (λ d (kv : str * nat), OrderedDict.setitem d kv.1 kv.2)
         (zip labels todo) pages),
   {| stdout := stdout w ++
        mjoin (log_text (Logger.num logger) line <$>
                 progress_texts file_name num_pages todo spinner);
      files := files w |}).
Proof.
  intros Hname Hall.
  destruct (collect_pages_ok logger pdf line file_name num_pages todo labels
              spinner pages w Hname Hall) as [out Hok].
  destruct (collect_pages_prints num_pages todo spinner pages w Hname)
    as (k & Hworld & Hk).
  rewrite Hok in Hworld, Hk. cbn [fst snd] in Hworld, Hk.
  rewrite Hok, Hworld. rewrite take_ge; [done|].
  specialize (Hk _ eq_refl).
  assert (∀ todo spinner,
            length (progress_texts file_name num_pages todo spinner) = length todo)
    as Hlen.
  { clear. intros todo. induction todo as [|i todo IH]; intros spinner; simpl;
      [done|by rewrite IH]. }
  rewrite Hlen. lia.
Qed.

(** Everything [organize_file] prints goes through [log] for its line, when
    its messages can be encoded: the progress messages, and after them the
    completion message when the call returns normally. *)
Lemma organize_file_prints directory output w :
  files w !! path_join directory file_name = Some pdf →
  (pdf ≠ [] → encodable file_name = true) →
  (∀ m, (m ≤ length pdf)%nat →
        encodable (completion_text format_reduction file_name (length pdf) m) = true) →
  let run := organize_file format_reduction logger
               (line, file_name, directory, output) w in
  ∃ msgs,
    stdout run.2 = stdout w ++ mjoin (log_text (Logger.num logger) line <$> msgs) ∧
    Forall (λ msg,
              msg ∈ progress_texts file_name (length pdf) (seq 0 (length pdf)) 0 ∨
              ∃ m, (m ≤ length pdf)%nat ∧
                   msg = completion_text format_reduction file_name (length pdf) m)
           msgs ∧
    (run.1 = Ok () →
     ∃ out_pdf,
       files run.2 !! path_join output file_name = Some out_pdf ∧
       last msgs = Some (completion_text format_reduction file_name (length pdf)
                           (length out_pdf))).
Proof.
  intros Hfile Hname Hcompletion run. subst run.
  destruct (decide (pdf = [])) as [->|Hnil].
  { rewrite organize_file_no_pages by done. exists []. cbn [fst snd stdout].
    rewrite app_nil_r. split_and!; [done|constructor|done]. }
  specialize (Hname Hnil).
  destruct (decide (Exists (λ page, extractText page = []) pdf)) as [Hempty|Hempty].
  - apply Exists_exists in Hempty as (page & Hin & Htext).
    apply list_elem_of_lookup in Hin as [i Hi].
    destruct (collect_pages_raises logger pdf line file_name (length pdf)
                (seq 0 (length pdf)) 0%nat OrderedDict.empty w i Hname)
      as [out Hraise].
    { apply elem_of_seq. apply lookup_lt_Some in Hi. lia. }
    { rewrite (get_real_page_num_page _ _ _ Hi). by apply page_label_no_text. }
    destruct (collect_pages_prints (length pdf) (seq 0 (length pdf)) 0%nat
                OrderedDict.empty w Hname) as (k & Hworld & _).
    rewrite Hraise in Hworld. cbn [snd] in Hworld.
    unfold organize_file.
    erewrite bind_ok by (unfold open_pdf; rewrite Hfile; reflexivity).
    erewrite bind_raise by apply Hraise.
    eexists. cbn [fst snd]. rewrite Hworld. cbn [stdout].
    split_and!; [reflexivity| |done].
    apply Forall_forall. intros msg Hmsg. left.
    by apply (subseteq_take k) in Hmsg.
  - apply not_Exists_Forall in Hempty; [|intros page; apply _].
    destruct (all_pages_labelled pdf) as [labels Hlabels].
    { eapply Forall_impl; [exact Hempty|]. simpl. auto. }
    pose proof (Forall2_length _ _ _ Hlabels) as Hlen.
    pose proof (collect_pages_ok_prints (length pdf) _ _ 0%nat OrderedDict.empty w
                  Hname (labels_by_number _ _ Hlabels)) as Hcollect.
    fold (page_table (zip labels (seq 0 (length pdf)))) in Hcollect.
    rewrite (organize_file_after_loop format_reduction logger pdf line file_name
               directory output labels w _ Hfile Hlabels Hcollect).
    cbv zeta. rewrite bool_decide_false by done.
    assert (length (reorder (zip labels pdf)) ≤ length pdf)%nat as Hle.
    { etrans; [apply reorder_length_le|]. rewrite length_zip. lia. }
    rewrite log_eq by (by apply Hcompletion). cbn [fst snd stdout files].
    exists (progress_texts file_name (length pdf) (seq 0 (length pdf)) 0
              ++ [completion_text format_reduction file_name (length pdf)
                    (length (reorder (zip labels pdf)))]).
    split_and!.
    + rewrite fmap_app, join_app, <- app_assoc. simpl. by rewrite app_nil_r.
    + apply Forall_app. split.
      { apply Forall_forall. intros msg Hmsg. by left. }
      constructor; [|constructor]. right. by eexists.
    + intros _. exists (reorder (zip labels pdf)).
      split; [by rewrite lookup_insert_eq|]. by rewrite last_snoc.
Qed.
End organize_prints.

Lemma organize_file_screen
    (width : nat) (t0 : Terminal.tty)
    (format_reduction : nat → nat → str) (logger : Logger.t)
    (line : Z) (file_name directory output : str) (w : world)
    (pdf : PdfFileReader) :
  let run := organize_file format_reduction logger
               (line, file_name, directory, output) w in
  let t := Terminal.run width t0 (stdout w) in
  let t' := Terminal.run width t0 (stdout run.2) in
  files w !! path_join directory file_name = Some pdf →
  0 ≤ line < Logger.num logger →
  reserved t (Logger.num logger) →
  Forall (fits_row width t)
    (progress_texts file_name (length pdf) (seq 0 (length pdf)) 0) →
  (∀ m, (m ≤ length pdf)%nat →
        fits_row width t
          (completion_text format_reduction file_name (length pdf) m)) →
  ∃ msgs,
    reserved t' (Logger.num logger) ∧
    Terminal.row t' = Terminal.row t ∧
    Terminal.cursor_visible t' = Terminal.cursor_visible t ∧
    Terminal.rows t' =
      match last msgs with
      | Some msg => <[block_row t (Logger.num logger) line := msg]> (Terminal.rows t)
      | None => Terminal.rows t
      end ∧
    (run.1 = Ok () →
     ∃ out_pdf,
       files run.2 !! path_join output file_name = Some out_pdf ∧
       last msgs = Some (completion_text format_reduction file_name (length pdf)
                           (length out_pdf))).
Proof.
  intros run t t' Hfile Hline Hres Hprogress Hcompletion. subst t'.
  destruct (organize_file_prints format_reduction logger pdf line file_name
              directory output w Hfile) as (msgs & Hout & Hmsgs & Hlast).
  { intros Hnil. destruct pdf as [|page pdf']; [done|].
    cbn [length seq progress_texts] in Hprogress.
    apply Forall_cons in Hprogress as [(Hencodable & _) _].
    by rewrite progress_text_encodable in Hencodable. }
  { intros m Hm. apply (Hcompletion m Hm). }
  fold run in Hout, Hlast. rewrite Hout, run_app. fold t.
  exists msgs.
  destruct (run_logs width msgs t (Logger.num logger) line Hline Hres)
    as (Hres' & Hrow' & Hvis' & Hrows'); [|done].
  eapply Forall_impl; [exact Hmsgs|]. intros msg [Hin|(m & Hm & ->)].
  - by eapply Forall_forall in Hin; [|apply Hprogress].
  - by apply Hcompletion.
Qed.

(** X15: on the screen [organize_file] changes at most its own line of the
    reserved block, whatever it returns: every other row is as before, the
    cursor is back where it was, and the block stays reserved. This is for
    progress and completion messages that each fit on a row: standard output
    can encode them, they have no control characters, each of their
    characters takes one cell and they are not longer than the screen is
    wide. *)
Theorem X15_organize_file_draws_on_its_line_only
    (width : nat) (t0 : Terminal.tty)
    (format_reduction : nat → nat → str) (logger : Logger.t)
    (line : Z) (file_name directory output : str) (w : world)
    (pdf : PdfFileReader) :
  let run := organize_file format_reduction logger
               (line, file_name, directory, output) w in
  let t := Terminal.run width t0 (stdout w) in
  let t' := Terminal.run width t0 (stdout run.2) in
  files w !! path_join directory file_name = Some pdf →
  0 ≤ line < Logger.num logger →
  reserved t (Logger.num logger) →
  Forall (fits_row width t)
    (progress_texts file_name (length pdf) (seq 0 (length pdf)) 0) →
  (∀ m, (m ≤ length pdf)%nat →
        fits_row width t
          (completion_text format_reduction file_name (length pdf) m)) →
  reserved t' (Logger.num logger) ∧
  Terminal.row t' = Terminal.row t ∧
  Terminal.col t' = Terminal.col t ∧
  Terminal.cursor_visible t' = Terminal.cursor_visible t ∧
  ∀ j, j ≠ block_row t (Logger.num logger) line →
       Terminal.rows t' !! j = Terminal.rows t !! j.
Proof.
  intros run t t' Hfile Hline Hres Hprogress Hcompletion.
  destruct (organize_file_screen width t0 format_reduction logger line file_name
              directory output w pdf Hfile Hline Hres Hprogress Hcompletion)
    as (msgs & Hres' & Hrow' & Hvis' & Hrows' & _).
  fold run t in Hres', Hrow', Hvis', Hrows'. fold t' in Hres', Hrow', Hvis', Hrows'.
  split_and!; [done|done| |done|].
  - destruct Hres as (_ & -> & _), Hres' as (_ & -> & _). done.
  - intros j Hj. rewrite Hrows'. destruct (last msgs); [|done].
    by rewrite list_lookup_insert_ne.
Qed.

(** X16: when [organize_file] returns normally, with messages that each fit
    on a row as for X15, its line of the block shows the completion message
    with the number of pages of the source document and of the document it
    has written. *)
Theorem X16_organize_file_shows_completion
    (width : nat) (t0 : Terminal.tty)
    (format_reduction : nat → nat → str) (logger : Logger.t)
    (line : Z) (file_name directory output : str) (w w' : world)
    (pdf : PdfFileReader) :
  let t := Terminal.run width t0 (stdout w) in
  let t' := Terminal.run width t0 (stdout w') in
  organize_file format_reduction logger (line, file_name, directory, output) w
    = (Ok (), w') →
  files w !! path_join directory file_name = Some pdf →
  0 ≤ line < Logger.num logger →
  reserved t (Logger.num logger) →
  Forall (fits_row width t)
    (progress_texts file_name (length pdf) (seq 0 (length pdf)) 0) →
  (∀ m, (m ≤ length pdf)%nat →
        fits_row width t
          (completion_text format_reduction file_name (length pdf) m)) →
  ∃ out_pdf,
    files w' !! path_join output file_name = Some out_pdf ∧
    Terminal.rows t' !! block_row t (Logger.num logger) line =
      Some (completion_text format_reduction file_name (length pdf)
              (length out_pdf)).
Proof.
  intros t t' Hrun Hfile Hline Hres Hprogress Hcompletion.
  destruct (organize_file_screen width t0 format_reduction logger line file_name
              directory output w pdf Hfile Hline Hres Hprogress Hcompletion)
    as (msgs & _ & _ & _ & Hrows' & Hlast).
  rewrite Hrun in Hrows', Hlast. cbn [fst snd] in Hrows', Hlast.
  destruct (Hlast eq_refl) as (out_pdf & Hout & Hmsg).
  exists out_pdf. split; [done|].
  fold t t' in Hrows'. rewrite Hrows', Hmsg.
  apply list_lookup_insert_eq.
  destruct Hres as (_ & _ & Hnum & Hrow). unfold block_row. lia.
Qed.

Lemma X15_organize_file_draws_witness :
  let p1 := {| extractText := py "1/2"; body := 1 |} in
  let p2 := {| extractText := []; body := 2 |} in
  let logger := {| Logger.num := 2 |} in
  let w := (Logger.__init__ 2
              {| stdout := []; files := {[ py "in/scan.pdf" := [p1; p2] ]} |}).2 in
  let run := organize_file (λ _ _, py "0.00") logger
               (1, py "scan.pdf", py "in", py "out") w in
  let t := Terminal.run 80 (Terminal.blank 24) (stdout w) in
  let t' := Terminal.run 80 (Terminal.blank 24) (stdout run.2) in
  reserved t' 2 ∧
  Terminal.row t' = Terminal.row t ∧
  Terminal.col t' = Terminal.col t ∧
  Terminal.cursor_visible t' = Terminal.cursor_visible t ∧
  ∀ j, j ≠ block_row t 2 1 → Terminal.rows t' !! j = Terminal.rows t !! j.
Proof.
  intros p1 p2 logger w.
  apply (X15_organize_file_draws_on_its_line_only 80 (Terminal.blank 24)
           (λ _ _, py "0.00") logger 1 (py "scan.pdf") (py "in") (py "out") w
           [p1; p2]).
  - reflexivity.
  - simpl. lia.
  - vm_compute. repeat split; try discriminate; lia.
  - cbn [progress_texts seq length].
    repeat (apply Forall_cons; split;
            [vm_compute; split_and!; [reflexivity|repeat constructor..|lia]|]).
    constructor.
  - intros m Hm. simpl in Hm.
    destruct m as [|[|[|m]]];
      [vm_compute; split_and!; [reflexivity|repeat constructor..|lia]..|lia].
Defined.

Lemma X16_organize_file_shows_completion_witness :
  let p1 := {| extractText := py "1/2"; body := 1 |} in
  let p2 := {| extractText := py "2/2"; body := 2 |} in
  let p3 := {| extractText := py "1/2"; body := 3 |} in
  let logger := {| Logger.num := 2 |} in
  let w := (Logger.__init__ 2
              {| stdout := []; files := {[ py "in/scan.pdf" := [p1; p2; p3] ]} |}).2 in
  let w' := (organize_file (λ _ _, py "33.33") logger
               (1, py "scan.pdf", py "in", py "out") w).2 in
  let t := Terminal.run 80 (Terminal.blank 24) (stdout w) in
  let t' := Terminal.run 80 (Terminal.blank 24) (stdout w') in
  ∃ out_pdf,
    files w' !! path_join (py "out") (py "scan.pdf") = Some out_pdf ∧
    Terminal.rows t' !! block_row t 2 1 =
      Some (completion_text (λ _ _, py "33.33") (py "scan.pdf")
              (length [p1; p2; p3]) (length out_pdf)).
Proof.
  intros p1 p2 p3 logger w w'.
  apply (X16_organize_file_shows_completion 80 (Terminal.blank 24)
           (λ _ _, py "33.33") logger 1 (py "scan.pdf") (py "in") (py "out") w w'
           [p1; p2; p3]).
  - vm_compute. reflexivity.
  - reflexivity.
  - simpl. lia.
  - vm_compute. repeat split; try discriminate; lia.
  - cbn [progress_texts seq length].
    repeat (apply Forall_cons; split;
            [vm_compute; split_and!; [reflexivity|repeat constructor..|lia]|]).
    constructor.
  - intros m Hm. simpl in Hm.
    destruct m as [|[|[|[|m]]]];
      [vm_compute; split_and!; [reflexivity|repeat constructor..|lia]..|lia].
Defined.

(** ** The batch entry point *)

Lemma str_le_cons x a y b :
  str_le (x :: a) (y :: b) ↔ (x < y)%N ∨ (x = y ∧ str_le a b).
Proof.
  simpl. rewrite orb_True, andb_True.
  destruct (N.ltb_spec x y), (N.eqb_spec x y); simpl; split;
    intros [?|[? ?]]; (done || lia || auto).
Qed.

#[local] Instance str_le_total : Total (λ a b : str, Is_true (str_le a b)).
Proof.
  intros a. induction a as [|x a IH]; intros b; [by left|].
  destruct b as [|y b]; [by right|].
  rewrite !str_le_cons.
  destruct (N.lt_trichotomy x y) as [?|[->|?]]; [by left; left| |by right; left].
  destruct (IH b); [left|right]; by right.
Qed.

#[local] Instance str_le_trans : Transitive (λ a b : str, Is_true (str_le a b)).
Proof.
  intros a. induction a as [|x a IH]; intros b c; [done|].
  destruct b as [|y b]; [done|]. destruct c as [|z c]; [done|].
  rewrite !str_le_cons. intros [?|[-> Hab]] [?|[-> Hbc]].
  - left. lia.
  - by left.
  - by left.
  - right. split; [done|]. by eapply IH.
Qed.

(** X17: with at least one PDF file in the directory, the entry point makes
    a logger with one line per PDF file and a pool with one process per PDF
    file, and hands the pool one task per PDF file: the file names in sorted
    order, the task at position [i] with line [i]. So every task has a line
    of the logger's block and no two tasks have the same line. *)
Theorem X17_main_gives_each_pdf_file_a_line
    (format_reduction : nat → nat → str)
    (pool_map : Z → (Z * str * str * str → M ()) → list (Z * str * str * str) → M ())
    (directory output : str) (listing : list str) (w : world) :
  let files := filter (λ f, endswith f (py ".pdf")) listing in
  let files_num := Z.of_nat (length files) in
  files ≠ [] →
  ∃ names tasks,
    names ≡ₚ files ∧
    StronglySorted (λ a b, str_le a b) names ∧
    tasks = imap (λ i f, (Z.of_nat i, f, directory, output)) names ∧
    Forall (λ task, 0 ≤ task.1.1.1 < files_num) tasks ∧
    NoDup ((λ task, task.1.1.1) <$> tasks) ∧
    main format_reduction pool_map directory output listing w =
    pool_map files_num
      (organize_file format_reduction {| Logger.num := files_num |}) tasks
      (Logger.__init__ files_num w).2.
Proof.
  intros files files_num Hfiles.
  exists (sorted files), (imap (λ i f, (Z.of_nat i, f, directory, output)) (sorted files)).
  assert (length (sorted files) = length files) as Hlen.
  { unfold sorted. by rewrite merge_sort_Permutation. }
  split_and!.
  - apply merge_sort_Permutation.
  - apply (StronglySorted_merge_sort _).
  - done.
  - apply Forall_forall. intros task Hin.
    apply list_elem_of_lookup in Hin as [i Hi].
    apply list_lookup_imap_Some in Hi as (f & Hf & ->). simpl.
    apply lookup_lt_Some in Hf. subst files_num. lia.
  - rewrite fmap_imap.
    replace (imap (λ n, (λ task : Z * str * str * str, task.1.1.1)
                          ∘ (λ f : str, (Z.of_nat n, f, directory, output)))
               (sorted files))
      with (Z.of_nat <$> seq 0 (length (sorted files))).
    + apply NoDup_fmap_2; [apply Nat2Z.inj'|apply NoDup_seq].
    + symmetry. apply (imap_seq_0 (sorted files) Z.of_nat).
  - unfold main. fold files. fold files_num.
    erewrite bind_ok by apply init_eq.
    erewrite bind_ok; cycle 1.
    { unfold Pool. destruct (Z.ltb_spec files_num 1) as [Hlt|_]; [|reflexivity].
      subst files_num. destruct files; [done|simpl in Hlt; lia]. }
    rewrite init_eq. cbn [snd]. f_equal.
    unfold enumerate. rewrite fmap_imap. done.
Qed.

Lemma X17_main_witness :
  let listing := [py "b.pdf"; py "notes.txt"; py "a.pdf"] in
  let w := {| stdout := []; files := ∅ |} in
  let pool_map : Z → (Z * str * str * str → M ()) → list (Z * str * str * str) → M ()
    := λ _ _ _, mret () in
  let files_num := Z.of_nat (length (filter (λ f, endswith f (py ".pdf")) listing)) in
  ∃ names tasks,
    names ≡ₚ filter (λ f, endswith f (py ".pdf")) listing ∧
    StronglySorted (λ a b, str_le a b) names ∧
    tasks = imap (λ i f, (Z.of_nat i, f, py "in", py "out")) names ∧
    Forall (λ task, 0 ≤ task.1.1.1 < files_num) tasks ∧
    NoDup ((λ task, task.1.1.1) <$> tasks) ∧
    main (λ _ _, py "0.00") pool_map (py "in") (py "out") listing w =
    pool_map files_num
      (organize_file (λ _ _, py "0.00") {| Logger.num := files_num |}) tasks
      (Logger.__init__ files_num w).2.
Proof.
  intros listing w pool_map files_num.
  apply (X17_main_gives_each_pdf_file_a_line (λ _ _, py "0.00") pool_map
           (py "in") (py "out") listing w).
  vm_compute. discriminate.
Defined.

(** ** Paths *)

Lemma path_join_relative a b :
  head b ≠ Some SLASH →
  path_join a b =
  if bool_decide (a = [] ∨ last a = Some SLASH) then a ++ b else a ++ SLASH :: b.
Proof.
  intros Hhead. unfold path_join. destruct b as [|c b].
  - case_bool_decide; [by rewrite app_nil_r|done].
  - rewrite bool_decide_false; [done|]. intros ->. by apply Hhead.
Qed.

(** X18: for file names that do not start with "/", as the names of a
    directory listing are, [os.path.join] keeps the file name at the end of
    the path and gives different paths for different names: two files of one
    directory never get the same output file. *)
Theorem X18_joined_paths_do_not_collide (a b1 b2 : str) :
  head b1 ≠ Some SLASH →
  head b2 ≠ Some SLASH →
  b1 `suffix_of` path_join a b1 ∧
  (path_join a b1 = path_join a b2 → b1 = b2).
Proof.
  intros Hb1 Hb2. rewrite !path_join_relative by done.
  case_bool_decide; split.
  - by apply suffix_app_r.
  - by intros ?%app_inv_head.
  - exists (a ++ [SLASH]). by rewrite <- app_assoc.
  - intros Heq%app_inv_head. by injection Heq.
Qed.

Lemma X18_joined_paths_witness :
  py "a.pdf" `suffix_of` path_join (py "out") (py "a.pdf") ∧
  (path_join (py "out") (py "a.pdf") = path_join (py "out") (py "b.pdf") →
   py "a.pdf" = py "b.pdf").
Proof.
  apply (X18_joined_paths_do_not_collide (py "out") (py "a.pdf") (py "b.pdf")).
  - vm_compute. discriminate.
  - vm_compute. discriminate.
Defined.

